(** * Skia Infra: the swarm_infra recipe and the presubmit entry points

    A shallow embedding of [infra/bots/recipes/swarm_infra.py] (the
    [retry] helper and [RunSteps]) and of the entry points of
    [PRESUBMIT.py], with the properties of the specification stated
    over them.

    The recipe talks to the outside world only through [api.step]; a
    step either returns, raises [StepFailure] (non-zero return code) or
    raises something else.  The world is an oracle that answers each
    invocation given the history of the run, and the run threads a state
    holding the one [env] dict the recipe allocates and the list of steps
    executed so far. *)

From Stdlib Require Import ZArith List Bool Ascii Lia DecimalString Sorted.
From Stdlib Require DecimalFacts DecimalNat.
From stdpp Require Import base option list gmap strings.

Open Scope Z_scope.

(* ===================================================================== *)
(** * infra/bots/recipes/swarm_infra.py                                   *)
(* ===================================================================== *)

Module Recipe.

(** ** Values *)

(** A recipe-engine [Path], already resolved to its components:
    [p.join(a, b)] appends components and [str(p)] joins them. *)
Definition Path := list string.

Definition join (p : Path) (pieces : list string) : Path := p ++ pieces.

Definition path_str (p : Path) : string := String.concat "/" p.

(** What the recipe stores in [env] and passes in [cmd]: a [str] or a
    [Path] object. *)
Inductive Value :=
  | VStr (s : string)
  | VPath (p : Path).

#[export] Instance Value_eq_dec : EqDecision Value.
Proof. solve_decision. Defined.

(** Python's [needle in hay] on strings. *)
Fixpoint contains (needle hay : string) : bool :=
  String.prefix needle hay ||
  match hay with
  | EmptyString => false
  | String _ rest => contains needle rest
  end.

Example contains_infix : contains "Large" "Infra-PerCommit-Large" = true.
Proof. reflexivity. Qed.

Example contains_absent : contains "Race" "Infra-PerCommit-Large" = false.
Proof. reflexivity. Qed.

(** ** Steps, outcomes, exceptions *)

(** How one [api.step] call ends: it returns, it raises [StepFailure]
    (the command exited with [retcode]), or it raises an exception that
    is not a [StepFailure]. *)
Inductive Outcome :=
  | Ok
  | Failure (retcode : Z)
  | Error (msg : string).

#[export] Instance Outcome_eq_dec : EqDecision Outcome.
Proof. solve_decision. Defined.

Inductive Exn :=
  | StepFailure (step_name : string) (retcode : Z)
  | StepError (step_name : string) (msg : string)
  | TypeError
  | KeyError (key : string)
  | IndexError.

#[export] Instance Exn_eq_dec : EqDecision Exn.
Proof. solve_decision. Defined.

(** One call of [api.step]: its name, its command, and the [cwd] and the
    contents of [env] given by the enclosing [api.context]. *)
Record Invocation := mkInvocation {
  inv_name : string;
  inv_cmd : list Value;
  inv_cwd : option Path;
  inv_env : option (gmap string Value)
}.

Definition StepRecord : Type := Invocation * Outcome.

(** The [api] object: the path configuration, the build properties and
    the outside world, which decides how an invocation ends from the
    steps run before it. *)
Record Api := mkApi {
  start_dir : list string;
  buildername : string;
  pathsep : string;
  run_command : list StepRecord -> Invocation -> Outcome
}.

(** ** State and control *)

(** [env] holds the contents of the dict bound to the local variable
    [env] of [RunSteps]; the recipe allocates that one dict and every
    [api.context(env=env)] refers to it, so a step sees whatever the
    dict holds when the step runs.  [trace] lists the steps executed, in
    order. *)
Record State := mkState {
  env : gmap string Value;
  trace : list StepRecord
}.

Definition initial : State := {| env := ∅; trace := [] |}.

Inductive Result (A : Type) :=
  | Normal (a : A)
  | Raise (e : Exn).
Arguments Normal {A} a.
Arguments Raise {A} e.

Definition M (A : Type) : Type := State -> Result A * State.

Definition ret {A} (a : A) : M A := fun s => (Normal a, s).

Definition raise {A} (e : Exn) : M A := fun s => (Raise e, s).

Definition bind {A B} (m : M A) (k : A -> M B) : M B :=
  fun s =>
    match m s with
    | (Normal a, s') => k a s'
    | (Raise e, s') => (Raise e, s')
    end.

Notation "x <- m ;; k" := (bind m (fun x => k))
  (at level 100, m at next level, right associativity).
Notation "m ;; k" := (bind m (fun _ => k))
  (at level 100, right associativity).

(** [try: body finally: handler].  The handler runs on every way out of
    the body; an exception of the handler replaces the body's. *)
Definition try_finally {A} (body : M A) (handler : M unit) : M A :=
  fun s =>
    match body s with
    | (r, s') =>
        match handler s' with
        | (Normal _, s'') => (r, s'')
        | (Raise e, s'') => (Raise e, s'')
        end
    end.

(** [for x in xs: body x] *)
Fixpoint for_each {A} (xs : list A) (body : A -> M unit) : M unit :=
  match xs with
  | [] => ret tt
  | x :: rest => body x ;; for_each rest body
  end.

(** [env = {...}], [env[k] = v] and [env[k]] on the recipe's dict. *)
Definition new_env (d : gmap string Value) : M unit :=
  fun s => (Normal tt, {| env := d; trace := trace s |}).

Definition setitem (k : string) (v : Value) : M unit :=
  fun s => (Normal tt, {| env := <[k := v]> (env s); trace := trace s |}).

Definition getitem (k : string) : M Value :=
  fun s =>
    match env s !! k with
    | Some v => (Normal v, s)
    | None => (Raise (KeyError k), s)
    end.

(** The keyword arguments of [api.context]: [cwd], and whether [env=env]
    is given. *)
Record Context := mkContext {
  ctx_cwd : option Path;
  ctx_env : bool
}.

(** The invocation a step makes under [ctx] when the dict holds [e]. *)
Definition invocation (ctx : Context) (name : string) (cmd : list Value)
    (e : gmap string Value) : Invocation :=
  {| inv_name := name;
     inv_cmd := cmd;
     inv_cwd := ctx_cwd ctx;
     inv_env := if ctx_env ctx then Some e else None |}.

Definition record (r : StepRecord) (s : State) : State :=
  {| env := env s; trace := trace s ++ [r] |}.

(** [api.step(name, cmd)] inside [with api.context(...)]. *)
Definition step (api : Api) (ctx : Context) (name : string)
    (cmd : list Value) : M unit :=
  fun s =>
    let inv := invocation ctx name cmd (env s) in
    let o := run_command api (trace s) inv in
    match o with
    | Ok => (Normal tt, record (inv, o) s)
    | Failure rc => (Raise (StepFailure name rc), record (inv, o) s)
    | Error msg => (Raise (StepError name msg), record (inv, o) s)
    end.

(** ** retry *)

(** [raise exc] where [exc] may still be [None]. *)
Definition raise_value {A} (exc : option Exn) : M A :=
  match exc with
  | Some e => raise e
  | None => raise TypeError
  end.

(** The [for _ in range(attempts)] loop of [retry] with [n] iterations
    left; [exc] is the local variable of that name. *)
Fixpoint retry_loop (api : Api) (n : nat) (exc : option Exn)
    (ctx : Context) (name : string) (cmd : list Value) : M unit :=
  match n with
  | O => raise_value exc
  | S n' =>
      fun s =>
        match step api ctx name cmd s with
        | (Normal _, s') => (Normal tt, s')
        | (Raise (StepFailure nm rc), s') =>
            retry_loop api n' (Some (StepFailure nm rc)) ctx name cmd s'
        | (Raise e, s') => (Raise e, s')
        end
  end.

Definition retry (api : Api) (attempts : Z) (ctx : Context) (name : string)
    (cmd : list Value) : M unit :=
  retry_loop api (Z.to_nat attempts) None ctx name cmd.

(** ** RunSteps *)

(** The start_dir hack: drop a trailing ["k"] component.  Indexing the
    last component of an empty tuple raises [IndexError]. *)
Definition hack_start_dir (sd : list string) : option (list string) :=
  match last sd with
  | None => None
  | Some c => if String.eqb c "k" then Some (removelast sd) else Some sd
  end.

Definition install_targets : list string :=
  [ "github.com/golang/protobuf/protoc-gen-go";
    "github.com/kisielk/errcheck";
    "golang.org/x/tools/cmd/goimports";
    "golang.org/x/tools/cmd/stringer";
    "github.com/GeertJohan/go.rice/rice";
    "github.com/twitchtv/twirp/protoc-gen-twirp";
    "go.larrymyers.com/protoc-gen-twirp_typescript" ].

Section Body.
Variable api : Api.
(** [api.path['start_dir']] once the hack is applied. *)
Variable sd : Path.

Definition depot_tools : Path := sd ++ ["recipe_bundle"; "depot_tools"].
Definition gopath : Path := join sd ["cache"; "gopath"].
Definition infra_dir : Path := join sd ["buildbot"].
Definition go_cache : Path := join sd ["cache"; "go_cache"].
Definition go_root : Path := join sd ["go"; "go"].
Definition go_bin : Path := join go_root ["bin"].
Definition run_emulators : Path :=
  join infra_dir ["scripts"; "run_emulators"; "run_emulators"].

(** The dict literal bound to [env]. *)
Definition base_env : gmap string Value :=
  <["PATH" := VStr (String.concat (pathsep api)
       [ path_str go_bin;
         path_str (join gopath ["bin"]);
         path_str (join sd ["gcloud_linux"; "bin"]);
         path_str (join sd ["protoc"; "bin"]);
         path_str (join sd ["node"; "node"; "bin"]);
         path_str (join sd ["cockroachdb"]);
         "%(PATH)s" ])]>
  (<["GIT_USER_AGENT" := VStr "git/1.9.1"]>
  (<["GOPATH" := VPath gopath]>
  (<["GOROOT" := VPath go_root]>
  (<["GOFLAGS" := VStr "-mod=readonly"]>
  (<["GOCACHE" := VPath go_cache]>
  (<["DOCKER_CONFIG" := VStr "/home/chrome-bot/.docker"]>
  (<["CHROME_HEADLESS" := VStr "1"]> ∅))))))).

(** [with api.context(cwd=infra_dir)] and
    [with api.context(cwd=infra_dir, env=env)]. *)
Definition in_infra : Context :=
  {| ctx_cwd := Some infra_dir; ctx_env := false |}.
Definition in_infra_env : Context :=
  {| ctx_cwd := Some infra_dir; ctx_env := true |}.

Definition uses_emulators (builder : string) : bool :=
  contains "Large" builder || contains "Race" builder.

(** The command line of the [run_unittests] step. *)
Definition unittests_cmd (builder : string) : list Value :=
  let cmd := [VStr "go"; VStr "run"; VStr "./run_unittests.go";
              VStr "--alsologtostderr"] in
  if contains "Race" builder then
    cmd ++ [VStr "--race"; VStr "--large"; VStr "--medium"; VStr "--small"]
  else if contains "Large" builder then cmd ++ [VStr "--large"]
  else if contains "Medium" builder then cmd ++ [VStr "--medium"]
  else cmd ++ [VStr "--small"].

Definition RunSteps_body : M unit :=
  (* Initialize the Git repo. *)
  step api in_infra "git init" [VStr "git"; VStr "init"] ;;
  step api in_infra "git add" [VStr "git"; VStr "add"; VStr "."] ;;
  step api in_infra "git commit"
    [VStr "git"; VStr "commit"; VStr "-m";
     VStr "Fake commit to satisfy recipe tests"] ;;
  (* Fetch Go dependencies. *)
  new_env base_env ;;
  step api in_infra_env "which go" [VStr "which"; VStr "go"] ;;
  retry api 3 in_infra_env "go mod download"
    [VStr "go"; VStr "mod"; VStr "download"] ;;
  for_each install_targets (fun target =>
    step api in_infra_env ("go install " +:+ target)
      [VStr "go"; VStr "install"; VStr "-v"; VStr target]) ;;
  (* More prerequisites. *)
  let builder := buildername api in
  (if uses_emulators builder then
     step api in_infra_env "start the cloud emulators"
       [VPath run_emulators; VStr "start"] ;;
     setitem "DATASTORE_EMULATOR_HOST" (VStr "localhost:8891") ;;
     setitem "BIGTABLE_EMULATOR_HOST" (VStr "localhost:8892") ;;
     setitem "PUBSUB_EMULATOR_HOST" (VStr "localhost:8893") ;;
     setitem "FIRESTORE_EMULATOR_HOST" (VStr "localhost:8894") ;;
     setitem "COCKROACHDB_EMULATOR_HOST" (VStr "localhost:8895")
   else ret tt) ;;
  (* Run tests. *)
  setitem "SKIABOT_TEST_DEPOT_TOOLS" (VPath depot_tools) ;;
  path <- getitem "PATH" ;;
  (match path with
   | VStr p =>
       setitem "PATH"
         (VStr (String.concat (pathsep api) [p; path_str depot_tools]))
   | VPath _ => raise TypeError
   end) ;;
  (if contains "Build" builder then
     step api in_infra_env "make all" [VStr "make"; VStr "all"]
   else
     try_finally
       (step api in_infra_env "run_unittests" (unittests_cmd builder))
       (if uses_emulators builder then
          step api in_infra_env "stop the cloud emulators"
            [VPath run_emulators; VStr "stop"]
        else ret tt)) ;;
  (* Sanity check; none of the above should have modified go.mod. *)
  step api in_infra "git diff go.mod"
    [VStr "git"; VStr "diff"; VStr "--no-ext-diff"; VStr "--exit-code";
     VStr "go.mod"].
End Body.

Definition RunSteps (api : Api) : M unit :=
  match hack_start_dir (start_dir api) with
  | None => raise IndexError
  | Some sd => RunSteps_body api sd
  end.

(* ------------------------------------------------------------------- *)
(** ** What a run is observed by *)
(* ------------------------------------------------------------------- *)

(** The names of the steps a run executed, in order. *)
Definition names (t : list StepRecord) : list string :=
  map (fun r => inv_name (fst r)) t.

(** Modelled from the spec: the recipe engine that calls [RunSteps] is
    not among the sources; the run succeeds when [RunSteps] returns and
    fails when it raises, and the process exits with 0 on success and a
    non-zero code otherwise. *)
Inductive Status := Success | Failed.

Definition status {A} (r : Result A) : Status :=
  match r with Normal _ => Success | Raise _ => Failed end.

Definition exit_code {A} (r : Result A) : Z :=
  match r with Normal _ => 0 | Raise _ => 1 end.

(** The steps in the order [RunSteps] declares them for a builder. *)
Definition declared_steps (builder : string) : list string :=
  ["git init"; "git add"; "git commit"; "which go"; "go mod download"] ++
  map (fun target => "go install " +:+ target) install_targets ++
  (if uses_emulators builder then ["start the cloud emulators"] else []) ++
  (if contains "Build" builder then ["make all"]
   else "run_unittests" ::
        (if uses_emulators builder then ["stop the cloud emulators"]
         else [])) ++
  ["git diff go.mod"].

(** Each executed step with how it ended. *)
Definition outcomes (t : list StepRecord) : list (string * Outcome) :=
  map (fun r => (inv_name (fst r), snd r)) t.

Definition is_ok (o : Outcome) : bool :=
  match o with Ok => true | _ => false end.

Definition is_failure (o : Outcome) : bool :=
  match o with Failure _ => true | _ => false end.

(** How many times the step [name] was invoked. *)
Definition runs_of (name : string) (t : list StepRecord) : nat :=
  length (List.filter (String.eqb name) (names t)).

(** How many invocations of [name] ended in a [StepFailure]. *)
Definition failed_attempts_in (name : string)
    (os : list (string * Outcome)) : nat :=
  length (List.filter
            (fun p => String.eqb name (fst p) && is_failure (snd p)) os).

Definition failed_attempts (name : string) (t : list StepRecord) : nat :=
  failed_attempts_in name (outcomes t).

(** The step [name] ran and succeeded; the step [name] ran and did not
    succeed. *)
Definition succeeded (name : string) (t : list StepRecord) : Prop :=
  In (name, Ok) (outcomes t).

Definition failed (name : string) (t : list StepRecord) : Prop :=
  exists o, In (name, o) (outcomes t) /\ o <> Ok.

Definition succeededb (name : string) (t : list StepRecord) : bool :=
  existsb (fun p => String.eqb name (fst p) && is_ok (snd p)) (outcomes t).

Definition failedb (name : string) (t : list StepRecord) : bool :=
  existsb (fun p => String.eqb name (fst p) && negb (is_ok (snd p)))
    (outcomes t).

(** The environment the first invocation of [name] ran with. *)
Definition env_of (name : string) (t : list StepRecord) :
    option (gmap string Value) :=
  match List.find (fun r => String.eqb name (inv_name (fst r))) t with
  | Some r => inv_env (fst r)
  | None => None
  end.

(** The exception a run reports, if it failed. *)
Definition failure_cause {A} (r : Result A) : option Exn :=
  match r with Normal _ => None | Raise e => Some e end.

(** The step an exception of [api.step] comes from. *)
Definition exn_step (e : Exn) : option string :=
  match e with
  | StepFailure name _ | StepError name _ => Some name
  | _ => None
  end.

(* ------------------------------------------------------------------- *)
(** ** The specification side: branches, environments, retries, halting *)
(* ------------------------------------------------------------------- *)

(** The five ways the main build/test step can go. *)
Inductive Branch := Build | Race | Large | Medium | Small.

(** The branch of a builder name as the specification words it: "Build"
    wins over everything, then "Race", then "Large", then "Medium", and
    a name with none of the four is Small. *)
Definition classify (builder : string) : Branch :=
  if contains "Build" builder then Build
  else if contains "Race" builder then Race
  else if contains "Large" builder then Large
  else if contains "Medium" builder then Medium
  else Small.

Definition go_run_unittests : list Value :=
  [VStr "go"; VStr "run"; VStr "./run_unittests.go";
   VStr "--alsologtostderr"].

(** The name and command line of the main step of each branch. *)
Definition branch_step (br : Branch) : string * list Value :=
  match br with
  | Build => ("make all", [VStr "make"; VStr "all"])
  | Race =>
      ("run_unittests",
       go_run_unittests ++
       [VStr "--race"; VStr "--large"; VStr "--medium"; VStr "--small"])
  | Large => ("run_unittests", go_run_unittests ++ [VStr "--large"])
  | Medium => ("run_unittests", go_run_unittests ++ [VStr "--medium"])
  | Small => ("run_unittests", go_run_unittests ++ [VStr "--small"])
  end.

(** The main build/test steps a run executed, with their command
    lines. *)
Definition main_calls (t : list StepRecord) : list (string * list Value) :=
  List.filter
    (fun c => String.eqb "make all" (fst c) ||
              String.eqb "run_unittests" (fst c))
    (map (fun r => (inv_name (fst r), inv_cmd (fst r))) t).

(** [s.endswith(suffix)] *)
Definition ends_with (suffix s : string) : bool :=
  (String.length suffix <=? String.length s)%nat &&
  String.eqb suffix
    (String.substring (String.length s - String.length suffix)
       (String.length suffix) s).

(** The emulator endpoint variables of an environment. *)
Definition emulator_vars (e : gmap string Value) : gmap string Value :=
  filter (fun kv => ends_with "_EMULATOR_HOST" (fst kv) = true) e.

(** The endpoints the recipe points the tests at. *)
Definition emulator_hosts : gmap string Value :=
  <["COCKROACHDB_EMULATOR_HOST" := VStr "localhost:8895"]>
  (<["FIRESTORE_EMULATOR_HOST" := VStr "localhost:8894"]>
  (<["PUBSUB_EMULATOR_HOST" := VStr "localhost:8893"]>
  (<["BIGTABLE_EMULATOR_HOST" := VStr "localhost:8892"]>
  (<["DATASTORE_EMULATOR_HOST" := VStr "localhost:8891"]> ∅)))).

(** The contents of [env] from the "Run tests" section on: the dict
    literal, the emulator endpoints for a Large or Race builder, the
    depot_tools entry and the extended PATH. *)
Definition tests_env (api : Api) (sd : Path) : gmap string Value :=
  <["PATH" := VStr (String.concat (pathsep api)
       [ String.concat (pathsep api)
           [ path_str (go_bin sd);
             path_str (join (gopath sd) ["bin"]);
             path_str (join sd ["gcloud_linux"; "bin"]);
             path_str (join sd ["protoc"; "bin"]);
             path_str (join sd ["node"; "node"; "bin"]);
             path_str (join sd ["cockroachdb"]);
             "%(PATH)s" ];
         path_str (depot_tools sd) ])]>
  (<["SKIABOT_TEST_DEPOT_TOOLS" := VPath (depot_tools sd)]>
   (if uses_emulators (buildername api) then
      <["COCKROACHDB_EMULATOR_HOST" := VStr "localhost:8895"]>
      (<["FIRESTORE_EMULATOR_HOST" := VStr "localhost:8894"]>
      (<["PUBSUB_EMULATOR_HOST" := VStr "localhost:8893"]>
      (<["BIGTABLE_EMULATOR_HOST" := VStr "localhost:8892"]>
      (<["DATASTORE_EMULATOR_HOST" := VStr "localhost:8891"]>
         (base_env api sd)))))
    else base_env api sd)).

(** The records of consecutive failed attempts of one invocation, with
    the return codes [rcs]. *)
Definition failures (inv : Invocation) (rcs : list Z) : list StepRecord :=
  map (fun rc => (inv, Failure rc)) rcs.

(** The first [length rcs] attempts of [inv] after history [t] fail with
    the return codes [rcs]. *)
Definition attempts_fail (api : Api) (t : list StepRecord)
    (inv : Invocation) (rcs : list Z) : Prop :=
  forall (i : nat) (rc : Z),
    rcs !! i = Some rc ->
    run_command api (t ++ failures inv (take i rcs)) inv = Failure rc.

(** A failed attempt that [retry] takes up again: a [StepFailure] of
    [go mod download] with fewer than two failed attempts before it. *)
Definition retried (pre : list (string * Outcome))
    (r : string * Outcome) : Prop :=
  fst r = "go mod download" /\ is_failure (snd r) = true /\
  (failed_attempts_in "go mod download" pre < 2)%nat.

Definition retriedb (pre : list (string * Outcome))
    (r : string * Outcome) : bool :=
  String.eqb "go mod download" (fst r) && is_failure (snd r) &&
  (failed_attempts_in "go mod download" pre <? 2)%nat.

(** After the first failing step that is neither the cleanup step nor a
    retried attempt, only the cleanup step runs. *)
Definition halts_at_first_failure (os : list (string * Outcome)) : Prop :=
  forall pre r post,
    os = pre ++ r :: post ->
    snd r <> Ok ->
    fst r <> "stop the cloud emulators" ->
    ~ retried pre r ->
    Forall (fun r' => fst r' = "stop the cloud emulators") post.

Fixpoint halts_from (pre os : list (string * Outcome)) : bool :=
  match os with
  | [] => true
  | r :: rest =>
      (is_ok (snd r) || String.eqb "stop the cloud emulators" (fst r) ||
       retriedb pre r ||
       forallb (fun r' => String.eqb "stop the cloud emulators" (fst r'))
         rest)
      && halts_from (pre ++ [r]) rest
  end.

(* ------------------------------------------------------------------- *)
(** ** Example inputs *)
(* ------------------------------------------------------------------- *)

Definition always (o : Outcome) : list StepRecord -> Invocation -> Outcome :=
  fun _ _ => o.

(** Example inputs: the builders of [GenTests] with a scripted world. *)
Definition builder_api (builder : string)
    (world : list StepRecord -> Invocation -> Outcome) : Api :=
  {| start_dir := ["b"; "work"; "k"]; buildername := builder;
     pathsep := ":"; run_command := world |}.

(** A world in which the steps named in [bad] exit with code 1 and every
    other step succeeds. *)
Definition failing (bad : list string) :
    list StepRecord -> Invocation -> Outcome :=
  fun _ inv =>
    if existsb (String.eqb (inv_name inv)) bad then Failure 1 else Ok.

(** A world in which the first attempt of [go mod download] exits with
    code 1 and everything else succeeds, as in the "Infra-PerCommit"
    case of [GenTests]. *)
Definition flaky_fetch : list StepRecord -> Invocation -> Outcome :=
  fun history inv =>
    if String.eqb (inv_name inv) "go mod download"
       && (runs_of "go mod download" history =? 0)%nat
    then Failure 1
    else Ok.

(** A world in which the first two invocations fail with codes 1 and 2,
    and one in which every invocation fails with code 7. *)
Definition fails_twice : list StepRecord -> Invocation -> Outcome :=
  fun history _ =>
    match length history with
    | O => Failure 1
    | S O => Failure 2
    | _ => Ok
    end.

(* ------------------------------------------------------------------- *)
(** ** Stepping through a run *)
(* ------------------------------------------------------------------- *)

(** [post m s Q]: running [m] from [s] ends in a result and a state that
    satisfy [Q].  Every [M] computation is total, so this is a statement
    about the one way the run ends. *)
Definition post {A} (m : M A) (s : State)
    (Q : Result A -> State -> Prop) : Prop :=
  Q (fst (m s)) (snd (m s)).

(** The result of an [api.step] call that ended with outcome [o]. *)
Definition outcome_result (name : string) (o : Outcome) : Result unit :=
  match o with
  | Ok => Normal tt
  | Failure rc => Raise (StepFailure name rc)
  | Error msg => Raise (StepError name msg)
  end.

Lemma step_unfold api ctx name cmd s :
  step api ctx name cmd s =
  (outcome_result name
     (run_command api (trace s) (invocation ctx name cmd (env s))),
   record (invocation ctx name cmd (env s),
           run_command api (trace s) (invocation ctx name cmd (env s))) s).
Proof. unfold step. destruct (run_command _ _ _); reflexivity. Qed.

Section Rules.
Context {A B : Type}.
Implicit Types (k : A -> M B) (Q : Result B -> State -> Prop).

Lemma post_ret (a : B) s Q : Q (Normal a) s -> post (ret a) s Q.
Proof. exact (fun H => H). Qed.

Lemma post_bind (m : M A) k s Q :
  post m s (fun r s1 =>
    match r with
    | Normal a => post (k a) s1 Q
    | Raise e => Q (Raise e) s1
    end) ->
  post (bind m k) s Q.
Proof.
  unfold post, bind. destruct (m s) as [[a|e] s1]; cbn [fst snd]; auto.
Qed.

Lemma post_bind_ret (a : A) k s Q :
  post (k a) s Q -> post (bind (ret a) k) s Q.
Proof. exact (fun H => H). Qed.

Lemma post_bind_assoc {C} (m : M C) (h : C -> M A) k s Q :
  post (bind m (fun c => bind (h c) k)) s Q ->
  post (bind (bind m h) k) s Q.
Proof.
  unfold post, bind. destruct (m s) as [[c|e] s1]; cbn [fst snd]; auto.
Qed.
End Rules.

Section StepRules.
Context {B : Type}.
Variable api : Api.
Implicit Types (k : unit -> M B) (Q : Result B -> State -> Prop).
Implicit Types (e : gmap string Value) (t : list StepRecord).

Lemma post_step ctx name cmd e t (Q : Result unit -> State -> Prop) :
  (forall o, Q (outcome_result name o)
               {| env := e; trace := t ++ [(invocation ctx name cmd e, o)] |}) ->
  post (step api ctx name cmd) {| env := e; trace := t |} Q.
Proof. intros H. unfold post. rewrite step_unfold. apply H. Qed.

Lemma post_bind_step ctx name cmd k e t Q :
  post (k tt) {| env := e; trace := t ++ [(invocation ctx name cmd e, Ok)] |} Q ->
  (forall rc, Q (Raise (StepFailure name rc))
     {| env := e; trace := t ++ [(invocation ctx name cmd e, Failure rc)] |}) ->
  (forall msg, Q (Raise (StepError name msg))
     {| env := e; trace := t ++ [(invocation ctx name cmd e, Error msg)] |}) ->
  post (bind (step api ctx name cmd) k) {| env := e; trace := t |} Q.
Proof.
  intros Hok Hfail Herr. apply post_bind, post_step.
  intros [|rc|msg]; cbn [outcome_result]; auto.
Qed.

Lemma post_bind_retry_S n exc ctx name cmd k e t Q :
  post (k tt) {| env := e; trace := t ++ [(invocation ctx name cmd e, Ok)] |} Q ->
  (forall rc,
      post (bind (retry_loop api n (Some (StepFailure name rc))
                    ctx name cmd) k)
        {| env := e; trace := t ++ [(invocation ctx name cmd e, Failure rc)] |}
        Q) ->
  (forall msg, Q (Raise (StepError name msg))
     {| env := e; trace := t ++ [(invocation ctx name cmd e, Error msg)] |}) ->
  post (bind (retry_loop api (S n) exc ctx name cmd) k)
    {| env := e; trace := t |} Q.
Proof.
  intros Hok Hfail Herr. unfold post, bind. cbn [retry_loop].
  rewrite step_unfold.
  destruct (run_command api _ _) as [|rc|msg]; cbn [outcome_result].
  - apply Hok.
  - apply Hfail.
  - apply Herr.
Qed.

Lemma post_bind_retry_O exn ctx name cmd k s Q :
  Q (Raise exn) s ->
  post (bind (retry_loop api O (Some exn) ctx name cmd) k) s Q.
Proof. exact (fun H => H). Qed.

Lemma post_bind_setitem key v k e t Q :
  post (k tt) {| env := <[key := v]> e; trace := t |} Q ->
  post (bind (setitem key v) k) {| env := e; trace := t |} Q.
Proof. exact (fun H => H). Qed.

Lemma post_bind_new_env d k e t Q :
  post (k tt) {| env := d; trace := t |} Q ->
  post (bind (new_env d) k) {| env := e; trace := t |} Q.
Proof. exact (fun H => H). Qed.

Lemma post_bind_getitem key v (k : Value -> M B) e t Q :
  e !! key = Some v ->
  post (k v) {| env := e; trace := t |} Q ->
  post (bind (getitem key) k) {| env := e; trace := t |} Q.
Proof.
  intros Hv H. unfold post, bind, getitem. cbn [env]. rewrite Hv. apply H.
Qed.

Lemma post_bind_try_finally (body handler : M unit) k s Q :
  post body s (fun r s1 =>
    post handler s1 (fun rh s2 =>
      match rh with
      | Raise e => Q (Raise e) s2
      | Normal _ =>
          match r with
          | Normal a => post (k a) s2 Q
          | Raise e => Q (Raise e) s2
          end
      end)) ->
  post (bind (try_finally body handler) k) s Q.
Proof.
  unfold post, bind, try_finally.
  destruct (body s) as [r s1]; cbn [fst snd].
  destruct (handler s1) as [[[]|e] s2]; cbn [fst snd]; [|auto].
  destruct r; auto.
Qed.
End StepRules.

Lemma retry_3 api ctx name cmd :
  retry api 3 ctx name cmd = retry_loop api 3 None ctx name cmd.
Proof. reflexivity. Qed.

Lemma hack_start_dir_ok sd :
  sd <> [] -> exists sd', hack_start_dir sd = Some sd'.
Proof.
  intros Hsd. unfold hack_start_dir.
  destruct (last sd) as [c|] eqn:Hl.
  - destruct (String.eqb c "k"); eauto.
  - apply last_None in Hl. contradiction.
Qed.

Lemma post_RunSteps api (Q : Result unit -> State -> Prop) :
  start_dir api <> [] ->
  (forall sd, post (RunSteps_body api sd) initial Q) ->
  Q (fst (RunSteps api initial)) (snd (RunSteps api initial)).
Proof.
  intros Hsd H. unfold RunSteps.
  destruct (hack_start_dir_ok _ Hsd) as [sd ->]. apply H.
Qed.

Ltac lookup_env :=
  unfold base_env;
  repeat (rewrite lookup_insert_ne by discriminate);
  rewrite lookup_insert_eq; reflexivity.

Ltac norm_state :=
  cbv beta;
  cbn [app ctx_cwd ctx_env in_infra in_infra_env for_each
       install_targets].

(** One construct at the head of the run. *)
Ltac wp_step :=
  lazymatch goal with
  | |- post (bind (step _ _ _ _) _) _ _ =>
      apply post_bind_step; [ | intros ? | intros ? ]
  | |- post (step _ _ _ _) _ _ =>
      apply post_step; intros [| ? | ?]; cbn [outcome_result]
  | |- post (bind (retry_loop _ (S _) _ _ _ _) _) _ _ =>
      apply post_bind_retry_S; [ | intros ? | intros ? ]
  | |- post (bind (retry_loop _ O (Some _) _ _ _) _) _ _ =>
      apply post_bind_retry_O
  | |- post (bind (bind _ _) _) _ _ => apply post_bind_assoc
  | |- post (bind (ret _) _) _ _ => apply post_bind_ret
  | |- post (ret _) _ _ => apply post_ret
  | |- post (bind (setitem _ _) _) _ _ => apply post_bind_setitem
  | |- post (bind (new_env _) _) _ _ => apply post_bind_new_env
  | |- post (bind (getitem _) _) _ _ =>
      eapply post_bind_getitem; [ lookup_env | ]
  | |- post (bind (try_finally _ _) _) _ _ => apply post_bind_try_finally
  | |- post (bind (if uses_emulators ?b then _ else _) _) _ _ =>
      let E := fresh "Hemu" in destruct (uses_emulators b) eqn:E
  | |- post (bind (if contains "Build" ?b then _ else _) _) _ _ =>
      let E := fresh "Hbuild" in destruct (contains "Build" b) eqn:E
  end; norm_state.

Ltac wp_run := repeat wp_step.

(** The body of [RunSteps] from the initial state, ready to be stepped
    through. *)
Ltac wp_begin :=
  unfold RunSteps_body, initial; rewrite retry_3; norm_state.

Lemma succeeded_b name t : succeeded name t -> succeededb name t = true.
Proof.
  unfold succeeded, succeededb. intros H. apply existsb_exists.
  exists (name, Ok). split; [exact H|]. cbn. rewrite String.eqb_refl.
  reflexivity.
Qed.

Lemma failed_b name t : failed name t -> failedb name t = true.
Proof.
  unfold failed, failedb. intros (o & H & Hne). apply existsb_exists.
  exists (name, o). split; [exact H|]. cbn. rewrite String.eqb_refl.
  destruct o; [contradiction|reflexivity|reflexivity].
Qed.

(* ------------------------------------------------------------------- *)
(** ** retry *)
(* ------------------------------------------------------------------- *)

Lemma failures_length inv rcs : length (failures inv rcs) = length rcs.
Proof. apply length_map. Qed.

Lemma attempts_fail_tail api t inv rc rcs :
  attempts_fail api t inv (rc :: rcs) ->
  run_command api t inv = Failure rc /\
  attempts_fail api (t ++ [(inv, Failure rc)]) inv rcs.
Proof.
  intros H. split.
  - specialize (H 0%nat rc eq_refl). cbn in H.
    rewrite app_nil_r in H. exact H.
  - intros i rc' Hi. specialize (H (S i) rc' Hi). cbn in H.
    rewrite <- app_assoc. exact H.
Qed.

(** After [length rcs] failed attempts the loop is where it would be had
    it started with that many iterations fewer and the last failure in
    [exc]. *)
Lemma retry_loop_failures api ctx name cmd e :
  forall rcs n exc t,
    attempts_fail api t (invocation ctx name cmd e) rcs ->
    retry_loop api (length rcs + n) exc ctx name cmd
      {| env := e; trace := t |} =
    retry_loop api n
      (from_option (fun rc => Some (StepFailure name rc)) exc (last rcs))
      ctx name cmd
      {| env := e;
         trace := t ++ failures (invocation ctx name cmd e) rcs |}.
Proof.
  induction rcs as [|rc rcs IH]; intros n exc t Hfail.
  - cbn. rewrite app_nil_r. reflexivity.
  - apply attempts_fail_tail in Hfail as [H0 Hrest].
    cbn [length Nat.add retry_loop]. rewrite step_unfold.
    cbn [env trace record]. rewrite H0. cbn [outcome_result].
    rewrite (IH n _ _ Hrest). cbn [failures map].
    rewrite <- app_assoc. cbn [app].
    destruct rcs as [|rc' rcs]; [reflexivity|].
    rewrite last_cons_cons.
    destruct (proj2 (last_is_Some (rc' :: rcs))) as [x ->]; [done|].
    reflexivity.
Qed.

Lemma retry_succeeds api attempts ctx name cmd e t rcs :
  let inv := invocation ctx name cmd e in
  attempts_fail api t inv rcs ->
  Z.of_nat (length rcs) < attempts ->
  run_command api (t ++ failures inv rcs) inv = Ok ->
  retry api attempts ctx name cmd {| env := e; trace := t |} =
  (Normal tt, {| env := e; trace := t ++ failures inv rcs ++ [(inv, Ok)] |}).
Proof.
  intros inv Hfail Hlt Hok. unfold retry.
  replace (Z.to_nat attempts)
    with (length rcs + S (Z.to_nat attempts - S (length rcs)))%nat by lia.
  rewrite (retry_loop_failures _ _ _ _ _ _ _ _ _ Hfail).
  cbn [retry_loop]. rewrite step_unfold. cbn [env trace record].
  fold inv. rewrite Hok. unfold record. cbn [outcome_result env trace].
  rewrite <- app_assoc. reflexivity.
Qed.

Lemma retry_exhausted api attempts ctx name cmd e t rcs rc :
  let inv := invocation ctx name cmd e in
  attempts_fail api t inv (rcs ++ [rc]) ->
  Z.of_nat (length (rcs ++ [rc])) = attempts ->
  retry api attempts ctx name cmd {| env := e; trace := t |} =
  (Raise (StepFailure name rc),
   {| env := e; trace := t ++ failures inv (rcs ++ [rc]) |}).
Proof.
  intros inv Hfail Hlen. unfold retry.
  replace (Z.to_nat attempts) with (length (rcs ++ [rc]) + 0)%nat by lia.
  rewrite (retry_loop_failures _ _ _ _ _ _ _ _ _ Hfail).
  rewrite last_snoc. reflexivity.
Qed.

(** C4: with [attempts >= 1], a step that fails on attempts [1..k-1]
    (return codes [rcs], so [k = length rcs + 1]) and succeeds on attempt
    [k <= attempts] makes [retry] return after exactly [k] invocations;
    a step that fails on all [attempts] attempts makes [retry] raise the
    [StepFailure] of the last attempt after exactly [attempts]
    invocations. *)
Theorem retry_stops_at_first_success api attempts ctx name cmd e t rcs :
  let inv := invocation ctx name cmd e in
  let s := {| env := e; trace := t |} in
  1 <= attempts ->
  attempts_fail api t inv rcs ->
  (Z.of_nat (length rcs) + 1 <= attempts ->
   run_command api (t ++ failures inv rcs) inv = Ok ->
   fst (retry api attempts ctx name cmd s) = Normal tt /\
   trace (snd (retry api attempts ctx name cmd s)) =
     t ++ failures inv rcs ++ [(inv, Ok)] /\
   Z.of_nat (length (trace (snd (retry api attempts ctx name cmd s)))) =
     Z.of_nat (length t) + (Z.of_nat (length rcs) + 1)) /\
  (Z.of_nat (length rcs) = attempts ->
   exists rc,
     last rcs = Some rc /\
     fst (retry api attempts ctx name cmd s) =
       Raise (StepFailure name rc) /\
     trace (snd (retry api attempts ctx name cmd s)) =
       t ++ failures inv rcs /\
     Z.of_nat (length (trace (snd (retry api attempts ctx name cmd s)))) =
       Z.of_nat (length t) + attempts).
Proof.
  intros inv s Hpos Hfail. split.
  - intros Hk Hok. subst s.
    rewrite (retry_succeeds api attempts ctx name cmd e t rcs Hfail)
      by (fold inv; auto; lia).
    cbn [fst snd trace]. repeat split.
    rewrite !length_app, failures_length. cbn [length]. lia.
  - intros Hlen. subst s.
    destruct (exists_last (l := rcs)) as (rcs' & rc & ->).
    { intros ->. cbn in Hlen. lia. }
    exists rc. rewrite last_snoc.
    rewrite (retry_exhausted api attempts ctx name cmd e t rcs' rc Hfail Hlen).
    cbn [fst snd trace]. repeat split.
    rewrite length_app, failures_length. lia.
Qed.

(** C9: [retry] with [attempts <= 0] (in particular [attempts = 0]) runs
    the step zero times and raises: the [for]-[else] clause executes
    [raise exc] with [exc] still [None], which is a [TypeError]. *)
Theorem retry_without_attempts_raises api attempts ctx name cmd s :
  attempts <= 0 ->
  fst (retry api attempts ctx name cmd s) = Raise TypeError /\
  trace (snd (retry api attempts ctx name cmd s)) = trace s /\
  snd (retry api attempts ctx name cmd s) = s.
Proof.
  intros Hle. unfold retry.
  replace (Z.to_nat attempts) with 0%nat by lia.
  cbn. auto.
Qed.

(* ------------------------------------------------------------------- *)
(** ** A run in which every step succeeds *)
(* ------------------------------------------------------------------- *)

Lemma Forall_ok_forallb (t : list StepRecord) :
  Forall (fun r => snd r = Ok) t ->
  forallb (fun r => match snd r with Ok => true | _ => false end) t = true.
Proof.
  induction 1 as [|[inv o] t Ho _ IH]; cbn in *; [done|].
  subst o. exact IH.
Qed.

(** C1: when every executed step succeeds, [RunSteps] returns (status
    Success, exit code 0) and the steps ran in the order the recipe
    declares them: the three git steps, [which go], [go mod download],
    the seven [go install] steps, the emulator start for a Large or Race
    builder, the main build/test step, the emulator stop after
    [run_unittests] for a Large or Race builder, and [git diff go.mod]. *)
Theorem all_succeed_declared_order api :
  start_dir api <> [] ->
  Forall (fun r => snd r = Ok) (trace (snd (RunSteps api initial))) ->
  fst (RunSteps api initial) = Normal tt /\
  status (fst (RunSteps api initial)) = Success /\
  exit_code (fst (RunSteps api initial)) = 0 /\
  names (trace (snd (RunSteps api initial))) =
    declared_steps (buildername api).
Proof.
  intros Hsd.
  apply (post_RunSteps api (fun r s' =>
    Forall (fun r => snd r = Ok) (trace s') ->
    r = Normal tt /\ status r = Success /\ exit_code r = 0 /\
    names (trace s') = declared_steps (buildername api))); [exact Hsd|].
  intros sd. wp_begin.
  wp_run.
  all: intros Hall%Forall_ok_forallb; cbn [trace forallb snd andb] in Hall;
    try discriminate Hall.
  all: unfold declared_steps; rewrite Hemu, Hbuild; repeat split.
Qed.

(* ------------------------------------------------------------------- *)
(** ** Branch selection *)
(* ------------------------------------------------------------------- *)

Lemma branch_step_inj br1 br2 :
  branch_step br1 = branch_step br2 -> br1 = br2.
Proof. destruct br1, br2; intros H; try reflexivity; discriminate H. Qed.

Lemma build_branch_step builder :
  contains "Build" builder = true ->
  ("make all", [VStr "make"; VStr "all"]) = branch_step (classify builder).
Proof. unfold classify. intros ->. reflexivity. Qed.

Lemma unittests_branch_step builder :
  contains "Build" builder = false ->
  ("run_unittests", unittests_cmd builder) = branch_step (classify builder).
Proof.
  unfold classify, unittests_cmd. intros ->.
  destruct (contains "Race" builder); [reflexivity|].
  destruct (contains "Large" builder); [reflexivity|].
  destruct (contains "Medium" builder); reflexivity.
Qed.

Tactic Notation "leaf_calls" :=
  lazy beta iota delta
    [trace main_calls map List.filter fst snd inv_name inv_cmd invocation
     String.eqb Ascii.eqb Bool.eqb String.append orb].

(** C3: the main build/test step a run executes is the step of exactly
    one of the five branches, chosen from the builder name with "Build"
    before "Race" before "Large" before "Medium", and Small when none of
    the four occurs; a run that returns executed that step once. *)
Theorem branch_selection_total_exclusive api :
  start_dir api <> [] ->
  let builder := buildername api in
  let t := trace (snd (RunSteps api initial)) in
  (main_calls t = [] \/ main_calls t = [branch_step (classify builder)]) /\
  (fst (RunSteps api initial) = Normal tt ->
   main_calls t = [branch_step (classify builder)]) /\
  (forall br, branch_step br = branch_step (classify builder) <->
              br = classify builder) /\
  (contains "Build" builder = true -> classify builder = Build) /\
  (contains "Build" builder = false -> contains "Race" builder = true ->
   classify builder = Race) /\
  (contains "Build" builder = false -> contains "Race" builder = false ->
   contains "Large" builder = true -> classify builder = Large) /\
  (contains "Build" builder = false -> contains "Race" builder = false ->
   contains "Large" builder = false -> contains "Medium" builder = true ->
   classify builder = Medium) /\
  (contains "Build" builder = false -> contains "Race" builder = false ->
   contains "Large" builder = false -> contains "Medium" builder = false ->
   classify builder = Small).
Proof.
  intros Hsd builder t.
  assert (Hrun :
    (main_calls t = [] \/ main_calls t = [branch_step (classify builder)]) /\
    (fst (RunSteps api initial) = Normal tt ->
     main_calls t = [branch_step (classify builder)])).
  { subst t builder.
    apply (post_RunSteps api (fun r s' =>
      (main_calls (trace s') = [] \/
       main_calls (trace s') = [branch_step (classify (buildername api))]) /\
      (r = Normal tt ->
       main_calls (trace s') = [branch_step (classify (buildername api))])));
      [exact Hsd|].
    intros sd. wp_begin.
    wp_run.
    all: leaf_calls;
      rewrite <- ?(build_branch_step _ Hbuild),
              <- ?(unittests_branch_step _ Hbuild).
    all: split; [auto|]; intros Hr; first [discriminate Hr|reflexivity]. }
  destruct Hrun as [H1 H2]. split; [exact H1|]. split; [exact H2|].
  split.
  { intros br. split; [apply branch_step_inj|intros ->; reflexivity]. }
  unfold classify.
  repeat split; intros; repeat match goal with
    | H : contains _ _ = _ |- _ => rewrite H; clear H end; reflexivity.
Qed.

(* ------------------------------------------------------------------- *)
(** ** A failing dependency fetch *)
(* ------------------------------------------------------------------- *)

Tactic Notation "leaf_names" :=
  cbn [trace outcomes names map fst snd inv_name invocation].
Tactic Notation "leaf_names" "in" hyp(H) :=
  cbn [trace outcomes names map fst snd inv_name invocation] in H.

(** C5 (as stated, refuted): for "Infra-PerCommit-Large" with
    [go mod download] failing on all three attempts the run fails, but
    neither the emulator-start nor the emulator-stop step ran. *)
Lemma fetch_failure_large_counterexample :
  let run := RunSteps (builder_api "Infra-PerCommit-Large"
                         (failing ["go mod download"])) initial in
  failed_attempts "go mod download" (trace (snd run)) = 3%nat /\
  status (fst run) = Failed /\
  ~ (In "start the cloud emulators" (names (trace (snd run))) /\
     In "stop the cloud emulators" (names (trace (snd run)))).
Proof.
  vm_compute. repeat split. intros [H _].
  repeat (destruct H as [H|H]; [discriminate H|]). exact H.
Qed.

(** C5 (amended): when [go mod download] fails on all three attempts the
    run fails with a non-zero exit code, the reported cause is that
    step's [StepFailure], and the run stops there: neither the
    emulator-start nor the emulator-stop step ran. *)
Theorem fetch_failure_aborts_run api :
  start_dir api <> [] ->
  failed_attempts "go mod download" (trace (snd (RunSteps api initial)))
    = 3%nat ->
  status (fst (RunSteps api initial)) = Failed /\
  exit_code (fst (RunSteps api initial)) <> 0 /\
  (exists rc, fst (RunSteps api initial) =
                Raise (StepFailure "go mod download" rc)) /\
  runs_of "go mod download" (trace (snd (RunSteps api initial))) = 3%nat /\
  runs_of "start the cloud emulators"
    (trace (snd (RunSteps api initial))) = 0%nat /\
  runs_of "stop the cloud emulators"
    (trace (snd (RunSteps api initial))) = 0%nat.
Proof.
  intros Hsd.
  apply (post_RunSteps api (fun r s' =>
    failed_attempts "go mod download" (trace s') = 3%nat ->
    status r = Failed /\ exit_code r <> 0 /\
    (exists rc, r = Raise (StepFailure "go mod download" rc)) /\
    runs_of "go mod download" (trace s') = 3%nat /\
    runs_of "start the cloud emulators" (trace s') = 0%nat /\
    runs_of "stop the cloud emulators" (trace s') = 0%nat));
    [exact Hsd|].
  intros sd. wp_begin.
  wp_run.
  all: unfold failed_attempts, runs_of; leaf_names; intros H;
    vm_compute in H; try discriminate H.
  all: vm_compute; repeat split; eauto; discriminate.
Qed.

(* ------------------------------------------------------------------- *)
(** ** A failing cleanup *)
(* ------------------------------------------------------------------- *)

(** C6 (as stated, refuted): on "Infra-PerCommit-Large" with both
    [run_unittests] and the emulator-stop step failing, the failure the
    run reports is the cleanup step's, not the original one. *)
Lemma cleanup_failure_counterexample :
  let run := RunSteps (builder_api "Infra-PerCommit-Large"
               (failing ["run_unittests"; "stop the cloud emulators"]))
               initial in
  failedb "run_unittests" (trace (snd run)) = true /\
  failedb "stop the cloud emulators" (trace (snd run)) = true /\
  failure_cause (fst run) =
    Some (StepFailure "stop the cloud emulators" 1) /\
  failure_cause (fst run) <> Some (StepFailure "run_unittests" 1).
Proof. vm_compute. repeat split. discriminate. Qed.

(** C6 (amended): when [run_unittests] fails and the emulator-stop step
    that follows fails too, both failures are in the trace, and the run
    fails with the exception of the cleanup step: the failure raised in
    the [finally] block replaces the one of [run_unittests]. *)
Theorem cleanup_failure_replaces_cause api :
  start_dir api <> [] ->
  failed "run_unittests" (trace (snd (RunSteps api initial))) ->
  failed "stop the cloud emulators" (trace (snd (RunSteps api initial))) ->
  status (fst (RunSteps api initial)) = Failed /\
  exists e,
    failure_cause (fst (RunSteps api initial)) = Some e /\
    exn_step e = Some "stop the cloud emulators".
Proof.
  intros Hsd.
  apply (post_RunSteps api (fun r s' =>
    failed "run_unittests" (trace s') ->
    failed "stop the cloud emulators" (trace s') ->
    status r = Failed /\
    exists e, failure_cause r = Some e /\
              exn_step e = Some "stop the cloud emulators"));
    [exact Hsd|].
  intros sd. wp_begin.
  wp_run.
  all: intros H1%failed_b H2%failed_b; unfold failedb in H1, H2;
    leaf_names in H1; leaf_names in H2;
    vm_compute in H1; try discriminate H1;
    vm_compute in H2; try discriminate H2.
  all: cbn; eauto.
Qed.

(* ------------------------------------------------------------------- *)
(** ** The environment *)
(* ------------------------------------------------------------------- *)

Ltac filter_out :=
  rewrite map_filter_insert_not
    by (intros ?; cbn [fst]; vm_compute; discriminate).

Ltac filter_in :=
  rewrite map_filter_insert_True by (cbn [fst]; vm_compute; reflexivity).

Lemma emulator_vars_base_env api sd : emulator_vars (base_env api sd) = ∅.
Proof.
  unfold emulator_vars, base_env. repeat filter_out.
  apply map_filter_empty.
Qed.

Lemma emulator_vars_tests_env api sd :
  emulator_vars (tests_env api sd) =
  if uses_emulators (buildername api) then emulator_hosts else ∅.
Proof.
  unfold tests_env, emulator_vars at 1. do 2 filter_out.
  destruct (uses_emulators (buildername api)).
  - repeat filter_in. fold (emulator_vars (base_env api sd)).
    rewrite emulator_vars_base_env. reflexivity.
  - apply emulator_vars_base_env.
Qed.

Lemma emulator_hosts_size : size emulator_hosts = 5%nat.
Proof. vm_compute. reflexivity. Qed.

Lemma base_env_no_depot_tools api sd :
  base_env api sd !! "SKIABOT_TEST_DEPOT_TOOLS" = None.
Proof.
  unfold base_env. repeat (rewrite lookup_insert_ne by discriminate).
  apply lookup_empty.
Qed.

Lemma tests_env_depot_tools api sd :
  tests_env api sd !! "SKIABOT_TEST_DEPOT_TOOLS" =
  Some (VPath (depot_tools sd)).
Proof.
  unfold tests_env. rewrite lookup_insert_ne by discriminate.
  apply lookup_insert_eq.
Qed.

Lemma tests_env_not_base api sd : tests_env api sd <> base_env api sd.
Proof.
  intros H. pose proof (tests_env_depot_tools api sd) as Ht.
  rewrite H, base_env_no_depot_tools in Ht. discriminate Ht.
Qed.

(** [tests_env] depends on the [api] only through the path separator and
    the builder name. *)
Lemma tests_env_inputs api1 api2 sd :
  pathsep api2 = pathsep api1 ->
  buildername api2 = buildername api1 ->
  tests_env api2 sd = tests_env api1 sd.
Proof.
  intros Hp Hb. unfold tests_env, base_env. rewrite Hp, Hb. reflexivity.
Qed.

Tactic Notation "leaf_env" "in" hyp(H) :=
  lazy beta iota delta
    [trace env_of List.find fst inv_name inv_env invocation ctx_env
     ctx_cwd in_infra in_infra_env String.eqb Ascii.eqb Bool.eqb
     String.append] in H.

Tactic Notation "leaf_env" :=
  lazy beta iota delta
    [trace env env_of List.find fst inv_name inv_env invocation ctx_env
     ctx_cwd in_infra in_infra_env String.eqb Ascii.eqb Bool.eqb
     String.append].

(** What the steps of a run see in [env], and what the dict holds when
    the run returns. *)
Lemma run_env api sd :
  post (RunSteps_body api sd) initial (fun r s' =>
    (forall name e,
        name = "make all" \/ name = "run_unittests" ->
        env_of name (trace s') = Some e ->
        e = tests_env api sd) /\
    (r = Normal tt ->
     env s' = tests_env api sd /\
     env_of "which go" (trace s') = Some (base_env api sd))).
Proof.
  wp_begin. wp_run.
  all: split;
    [ intros name e [-> | ->] H; leaf_env in H; try discriminate H;
      apply (inj Some) in H; subst e
    | intros Hr; try discriminate Hr; leaf_env; split ].
  all: unfold tests_env; rewrite ?Hemu; reflexivity.
Qed.

(** C7 (as stated, refuted): on "Infra-PerCommit-Large" the test step
    runs with five emulator host variables, not four. *)
Lemma emulator_hosts_counterexample :
  let run := RunSteps (builder_api "Infra-PerCommit-Large" (always Ok))
               initial in
  exists e,
    env_of "run_unittests" (trace (snd run)) = Some e /\
    size (emulator_vars e) = 5%nat /\
    size (emulator_vars e) <> 4%nat.
Proof.
  exists (tests_env (builder_api "Infra-PerCommit-Large" (always Ok))
            ["b"; "work"]).
  split; [reflexivity|].
  rewrite emulator_vars_tests_env.
  change (uses_emulators _) with true. cbv iota.
  rewrite emulator_hosts_size. split; [reflexivity|discriminate].
Qed.

(** C7 (amended): whenever the build/test step runs, its environment
    holds emulator host variables if and only if the builder name
    contains "Large" or "Race", and then exactly five of them, each a
    [localhost:port] string with ports 8891 to 8895. *)
Theorem emulator_hosts_injected api name e :
  start_dir api <> [] ->
  name = "make all" \/ name = "run_unittests" ->
  env_of name (trace (snd (RunSteps api initial))) = Some e ->
  (emulator_vars e <> ∅ <-> uses_emulators (buildername api) = true) /\
  (uses_emulators (buildername api) = true ->
   emulator_vars e = emulator_hosts /\ size (emulator_vars e) = 5%nat).
Proof.
  intros Hsd Hname Henv.
  assert (He : exists sd, e = tests_env api sd).
  { revert Henv. unfold RunSteps.
    destruct (hack_start_dir_ok _ Hsd) as [sd ->].
    intros Henv. exists sd.
    exact (proj1 (run_env api sd) name e Hname Henv). }
  destruct He as [sd ->]. rewrite emulator_vars_tests_env.
  destruct (uses_emulators (buildername api)).
  - split; [|split; [reflexivity|apply emulator_hosts_size]].
    split; [reflexivity|]. intros _ H.
    pose proof emulator_hosts_size as Hs. rewrite H in Hs.
    discriminate Hs.
  - split; [|discriminate]. split; [intros H; contradiction|discriminate].
Qed.

(** [api.step] never changes [env]. *)
Lemma step_preserves_env api ctx name cmd s :
  env (snd (step api ctx name cmd s)) = env s.
Proof. rewrite step_unfold. reflexivity. Qed.

(** C8 (as stated, refuted): on "Infra-PerCommit-Small" the mapping the
    first step with [env=env] saw is not the mapping the dict holds when
    the run returns. *)
Lemma base_env_mutated_counterexample :
  let run := RunSteps (builder_api "Infra-PerCommit-Small" (always Ok))
               initial in
  exists base,
    env_of "which go" (trace (snd run)) = Some base /\
    env (snd run) <> base.
Proof.
  exists (base_env (builder_api "Infra-PerCommit-Small" (always Ok))
            ["b"; "work"]).
  split; [reflexivity|].
  change (tests_env (builder_api "Infra-PerCommit-Small" (always Ok))
            ["b"; "work"] <>
          base_env (builder_api "Infra-PerCommit-Small" (always Ok))
            ["b"; "work"]).
  apply tests_env_not_base.
Qed.

(** C8 (amended): the environment is a function of the inputs: two runs
    with the same start_dir, path separator and builder name that return
    end with equal mappings whatever their steps did, and [api.step]
    never changes the mapping.  The base mapping is not left unchanged,
    though: the recipe updates the one dict in place, and when the run
    returns it holds the depot_tools entry the base did not have. *)
Theorem env_deterministic_updated_in_place api1 api2 :
  start_dir api1 <> [] ->
  start_dir api2 = start_dir api1 ->
  pathsep api2 = pathsep api1 ->
  buildername api2 = buildername api1 ->
  fst (RunSteps api1 initial) = Normal tt ->
  fst (RunSteps api2 initial) = Normal tt ->
  env (snd (RunSteps api1 initial)) = env (snd (RunSteps api2 initial)) /\
  (forall ctx name cmd s, env (snd (step api1 ctx name cmd s)) = env s) /\
  exists base,
    env_of "which go" (trace (snd (RunSteps api1 initial))) = Some base /\
    base !! "SKIABOT_TEST_DEPOT_TOOLS" = None /\
    is_Some (env (snd (RunSteps api1 initial))
               !! "SKIABOT_TEST_DEPOT_TOOLS") /\
    env (snd (RunSteps api1 initial)) <> base.
Proof.
  intros Hsd Hs Hp Hb. unfold RunSteps. rewrite Hs.
  destruct (hack_start_dir_ok _ Hsd) as [sd ->].
  intros H1 H2.
  destruct (proj2 (run_env api1 sd) H1) as [He1 Hw1].
  destruct (proj2 (run_env api2 sd) H2) as [He2 _].
  rewrite He1, He2, Hw1. split; [|split].
  - symmetry. apply tests_env_inputs; assumption.
  - intros. apply step_preserves_env.
  - exists (base_env api1 sd). split; [reflexivity|].
    split; [apply base_env_no_depot_tools|].
    split; [rewrite tests_env_depot_tools; eauto|].
    apply tests_env_not_base.
Qed.

(* ------------------------------------------------------------------- *)
(** ** Cleanup and halting *)
(* ------------------------------------------------------------------- *)

Lemma retriedb_sound pre r : retriedb pre r = true -> retried pre r.
Proof.
  unfold retriedb, retried. rewrite !andb_true_iff.
  rewrite String.eqb_eq, Nat.ltb_lt. intuition.
Qed.

Lemma halts_from_sound os :
  forall pre, halts_from pre os = true ->
  forall p r post,
    os = p ++ r :: post ->
    snd r <> Ok ->
    fst r <> "stop the cloud emulators" ->
    ~ retried (pre ++ p) r ->
    Forall (fun r' => fst r' = "stop the cloud emulators") post.
Proof.
  induction os as [|x os IH]; intros pre Hh p r post Heq Hne Hstop Hretry.
  - destruct p; discriminate Heq.
  - cbn [halts_from] in Hh. apply andb_true_iff in Hh as [Hx Hrest].
    destruct p as [|y p]; cbn [app] in Heq.
    + injection Heq as -> ->. rewrite app_nil_r in Hretry.
      rewrite !orb_true_iff in Hx. destruct Hx as [[[Hx|Hx]|Hx]|Hx].
      * destruct (snd r); [contradiction|discriminate Hx ..].
      * apply String.eqb_eq in Hx. congruence.
      * apply retriedb_sound in Hx. contradiction.
      * apply Forall_forall. intros r' Hin.
        rewrite forallb_forall in Hx. symmetry.
        apply String.eqb_eq, Hx. apply list_elem_of_In. exact Hin.
    + injection Heq as -> ->.
      apply (IH (pre ++ [y]) Hrest p r post eq_refl Hne Hstop).
      rewrite <- app_assoc. exact Hretry.
Qed.

Lemma halts_from_nil os :
  halts_from [] os = true -> halts_at_first_failure os.
Proof.
  intros H pre r post. apply (halts_from_sound os [] H pre r post).
Qed.

(** C2 (as stated, refuted): for the builder name
    "Infra-PerCommit-Build-Large" with a fetch that fails once, the
    emulators are started and never stopped, and the failed attempt of
    [go mod download] does not keep [make all] from running. *)
Lemma cleanup_once_counterexample :
  let run := RunSteps (builder_api "Infra-PerCommit-Build-Large"
                         flaky_fetch) initial in
  let t := trace (snd run) in
  succeededb "start the cloud emulators" t = true /\
  runs_of "stop the cloud emulators" t <> 1%nat /\
  exists pre post,
    outcomes t = pre ++ ("go mod download", Failure 1) :: post /\
    In ("make all", Ok) post.
Proof.
  cbv zeta. split; [vm_compute; reflexivity|].
  split; [vm_compute; discriminate|].
  exists (firstn 4 (outcomes (trace (snd (RunSteps
            (builder_api "Infra-PerCommit-Build-Large" flaky_fetch)
            initial))))).
  exists (skipn 5 (outcomes (trace (snd (RunSteps
            (builder_api "Infra-PerCommit-Build-Large" flaky_fetch)
            initial))))).
  vm_compute. split; [reflexivity|].
  repeat (first [left; reflexivity | right]).
Qed.

Tactic Notation "leaf_outcomes" :=
  cbn [trace outcomes names map fst snd inv_name invocation].
Tactic Notation "leaf_outcomes" "in" hyp(H) :=
  cbn [trace outcomes names map fst snd inv_name invocation] in H.

(** C2 (amended): for every builder name without "Build" and whatever
    the steps do, once the emulator-start step has succeeded the
    emulator-stop step runs exactly once, however [run_unittests] ends;
    and for every builder name, after the first failing step that is
    neither the cleanup step nor an attempt [retry] takes up again, no
    step other than the cleanup step runs. *)
Theorem emulators_stopped_once_and_run_halts api :
  start_dir api <> [] ->
  let t := trace (snd (RunSteps api initial)) in
  (contains "Build" (buildername api) = false ->
   succeeded "start the cloud emulators" t ->
   runs_of "stop the cloud emulators" t = 1%nat) /\
  halts_at_first_failure (outcomes t).
Proof.
  intros Hsd. cbv zeta.
  apply (post_RunSteps api (fun r s' =>
    (contains "Build" (buildername api) = false ->
     succeeded "start the cloud emulators" (trace s') ->
     runs_of "stop the cloud emulators" (trace s') = 1%nat) /\
    halts_at_first_failure (outcomes (trace s'))));
    [exact Hsd|].
  intros sd. wp_begin.
  wp_run.
  all: split;
    [ intros Hb Hs%succeeded_b; unfold succeededb in Hs; unfold runs_of;
      leaf_outcomes in Hs; leaf_outcomes;
      first [ congruence
            | vm_compute in Hs; first [discriminate Hs | vm_compute; reflexivity] ]
    | apply halts_from_nil; leaf_outcomes; vm_compute; reflexivity ].
Qed.

(* ------------------------------------------------------------------- *)
(** ** The theorems at the builders of GenTests *)
(* ------------------------------------------------------------------- *)

Lemma builder_api_start_dir builder world :
  start_dir (builder_api builder world) <> [].
Proof. discriminate. Qed.

Lemma forallb_ok_Forall (t : list StepRecord) :
  forallb (fun r => match snd r with Ok => true | _ => false end) t = true ->
  Forall (fun r => snd r = Ok) t.
Proof.
  induction t as [|[inv o] t IH]; cbn; [constructor|].
  destruct o; [|discriminate ..]. intros H. constructor; auto.
Qed.

(** "Infra-PerCommit-Large", every step succeeding. *)
Lemma all_succeed_declared_order_witness :
  Forall (fun r => snd r = Ok)
    (trace (snd (RunSteps (builder_api "Infra-PerCommit-Large" (always Ok))
                   initial))) /\
  fst (RunSteps (builder_api "Infra-PerCommit-Large" (always Ok)) initial)
    = Normal tt /\
  names (trace (snd (RunSteps
           (builder_api "Infra-PerCommit-Large" (always Ok)) initial))) =
    declared_steps "Infra-PerCommit-Large".
Proof.
  assert (Hok : Forall (fun r => snd r = Ok)
    (trace (snd (RunSteps (builder_api "Infra-PerCommit-Large" (always Ok))
                   initial)))).
  { apply forallb_ok_Forall. vm_compute. reflexivity. }
  split; [exact Hok|].
  destruct (all_succeed_declared_order
              (builder_api "Infra-PerCommit-Large" (always Ok))
              (builder_api_start_dir _ _) Hok) as (Hr & _ & _ & Hn).
  split; [exact Hr|exact Hn].
Defined.

(** "Infra-PerCommit-Large" with a failing [run_unittests]: the
    emulators are stopped once. *)
Lemma emulators_stopped_once_and_run_halts_witness :
  contains "Build" "Infra-PerCommit-Large" = false /\
  succeeded "start the cloud emulators"
    (trace (snd (RunSteps (builder_api "Infra-PerCommit-Large"
                             (failing ["run_unittests"])) initial))) /\
  runs_of "stop the cloud emulators"
    (trace (snd (RunSteps (builder_api "Infra-PerCommit-Large"
                             (failing ["run_unittests"])) initial)))
    = 1%nat.
Proof.
  assert (Hs : succeeded "start the cloud emulators"
    (trace (snd (RunSteps (builder_api "Infra-PerCommit-Large"
                             (failing ["run_unittests"])) initial)))).
  { unfold succeeded. vm_compute.
    repeat (first [left; reflexivity | right]). }
  split; [reflexivity|]. split; [exact Hs|].
  exact (proj1 (emulators_stopped_once_and_run_halts
                  (builder_api "Infra-PerCommit-Large"
                     (failing ["run_unittests"]))
                  (builder_api_start_dir _ _)) eq_refl Hs).
Defined.

(** "Infra-PerCommit-Race": the Race branch. *)
Lemma branch_selection_total_exclusive_witness :
  classify "Infra-PerCommit-Race" = Race /\
  main_calls (trace (snd (RunSteps
                (builder_api "Infra-PerCommit-Race" (always Ok)) initial)))
    = [branch_step Race].
Proof.
  destruct (branch_selection_total_exclusive
              (builder_api "Infra-PerCommit-Race" (always Ok))
              (builder_api_start_dir _ _)) as (_ & Hrun & _).
  split; [reflexivity|]. apply Hrun. vm_compute. reflexivity.
Defined.

Lemma retry_stops_at_first_success_witness :
  fst (retry (builder_api "Infra-PerCommit-Small" fails_twice) 3
         {| ctx_cwd := None; ctx_env := true |} "go mod download"
         [VStr "go"; VStr "mod"; VStr "download"] initial) = Normal tt /\
  (exists rc,
     last [7; 7; 7] = Some rc /\
     fst (retry (builder_api "Infra-PerCommit-Small" (always (Failure 7))) 3
            {| ctx_cwd := None; ctx_env := true |} "go mod download"
            [VStr "go"; VStr "mod"; VStr "download"] initial) =
       Raise (StepFailure "go mod download" rc)).
Proof.
  split.
  - refine (proj1 (proj1 (retry_stops_at_first_success
              (builder_api "Infra-PerCommit-Small" fails_twice) 3
              {| ctx_cwd := None; ctx_env := true |} "go mod download"
              [VStr "go"; VStr "mod"; VStr "download"] ∅ [] [1; 2]
              _ _) _ _)).
    + lia.
    + intros [|[|i]] rc H; try discriminate H;
        injection H as <-; reflexivity.
    + cbn. lia.
    + reflexivity.
  - destruct (proj2 (retry_stops_at_first_success
              (builder_api "Infra-PerCommit-Small" (always (Failure 7))) 3
              {| ctx_cwd := None; ctx_env := true |} "go mod download"
              [VStr "go"; VStr "mod"; VStr "download"] ∅ [] [7; 7; 7]
              ltac:(lia)
              ltac:(intros [|[|[|i]]] rc H; try discriminate H;
                    injection H as <-; reflexivity))
              eq_refl) as (rc & Hl & Hr & _).
    exists rc. split; [exact Hl|exact Hr].
Defined.

Lemma retry_without_attempts_raises_witness :
  fst (retry (builder_api "Infra-PerCommit-Small" (always Ok)) 0
         {| ctx_cwd := None; ctx_env := true |} "go mod download"
         [VStr "go"; VStr "mod"; VStr "download"] initial) =
  Raise TypeError.
Proof.
  exact (proj1 (retry_without_attempts_raises
                  (builder_api "Infra-PerCommit-Small" (always Ok)) 0
                  {| ctx_cwd := None; ctx_env := true |} "go mod download"
                  [VStr "go"; VStr "mod"; VStr "download"] initial
                  ltac:(lia))).
Defined.

(** "Infra-PerCommit-Large" with a fetch that always fails. *)
Lemma fetch_failure_aborts_run_witness :
  failed_attempts "go mod download"
    (trace (snd (RunSteps (builder_api "Infra-PerCommit-Large"
                             (failing ["go mod download"])) initial)))
    = 3%nat /\
  runs_of "start the cloud emulators"
    (trace (snd (RunSteps (builder_api "Infra-PerCommit-Large"
                             (failing ["go mod download"])) initial)))
    = 0%nat.
Proof.
  assert (H3 : failed_attempts "go mod download"
    (trace (snd (RunSteps (builder_api "Infra-PerCommit-Large"
                             (failing ["go mod download"])) initial)))
    = 3%nat) by (vm_compute; reflexivity).
  split; [exact H3|].
  destruct (fetch_failure_aborts_run
              (builder_api "Infra-PerCommit-Large"
                 (failing ["go mod download"]))
              (builder_api_start_dir _ _) H3) as (_ & _ & _ & _ & Hs & _).
  exact Hs.
Defined.

(** "Infra-PerCommit-Large" with failing tests and a failing cleanup. *)
Lemma cleanup_failure_replaces_cause_witness :
  exists e,
    failure_cause (fst (RunSteps (builder_api "Infra-PerCommit-Large"
        (failing ["run_unittests"; "stop the cloud emulators"])) initial))
      = Some e /\
    exn_step e = Some "stop the cloud emulators".
Proof.
  refine (proj2 (cleanup_failure_replaces_cause
            (builder_api "Infra-PerCommit-Large"
               (failing ["run_unittests"; "stop the cloud emulators"]))
            (builder_api_start_dir _ _) _ _)).
  - exists (Failure 1). split; [|discriminate].
    vm_compute. repeat (first [left; reflexivity | right]).
  - exists (Failure 1). split; [|discriminate].
    vm_compute. repeat (first [left; reflexivity | right]).
Defined.

(** "Infra-PerCommit-Race": five emulator hosts for [run_unittests]. *)
Lemma emulator_hosts_injected_witness :
  size (emulator_vars
          (tests_env (builder_api "Infra-PerCommit-Race" (always Ok))
             ["b"; "work"])) = 5%nat.
Proof.
  refine (proj2 (proj2 (emulator_hosts_injected
            (builder_api "Infra-PerCommit-Race" (always Ok))
            "run_unittests"
            (tests_env (builder_api "Infra-PerCommit-Race" (always Ok))
               ["b"; "work"])
            (builder_api_start_dir _ _) _ _) _)).
  - right. reflexivity.
  - reflexivity.
  - reflexivity.
Defined.

(** "Infra-PerCommit-Small" under two worlds, both letting it finish. *)
Lemma env_deterministic_updated_in_place_witness :
  env (snd (RunSteps (builder_api "Infra-PerCommit-Small" (always Ok))
              initial)) =
  env (snd (RunSteps (builder_api "Infra-PerCommit-Small" flaky_fetch)
              initial)).
Proof.
  refine (proj1 (env_deterministic_updated_in_place
            (builder_api "Infra-PerCommit-Small" (always Ok))
            (builder_api "Infra-PerCommit-Small" flaky_fetch)
            (builder_api_start_dir _ _) eq_refl eq_refl eq_refl _ _)).
  - vm_compute. reflexivity.
  - vm_compute. reflexivity.
Defined.

(* ===================================================================== *)
(** * swarm_infra.py: further properties                                  *)
(* ===================================================================== *)

(* ------------------------------------------------------------------- *)
(** ** More of retry                                                     *)
(* ------------------------------------------------------------------- *)

Lemma attempts_fail_cons api t inv rc rcs :
  run_command api t inv = Failure rc ->
  attempts_fail api (t ++ [(inv, Failure rc)]) inv rcs ->
  attempts_fail api t inv (rc :: rcs).
Proof.
  intros H0 Hrest [|i] rc' Hi; cbn in Hi |- *.
  - injection Hi as <-. rewrite app_nil_r. exact H0.
  - specialize (Hrest i rc' Hi). rewrite <- app_assoc in Hrest. exact Hrest.
Qed.

(** Whatever the world does, a loop of [S n] iterations makes some failed
    attempts and one last attempt that decides the result. *)
Lemma retry_loop_outcomes api ctx name cmd e :
  forall n exc t,
    exists rcs o,
      (length rcs <= n)%nat /\
      (is_failure o = true -> length rcs = n) /\
      attempts_fail api t (invocation ctx name cmd e) rcs /\
      run_command api (t ++ failures (invocation ctx name cmd e) rcs)
        (invocation ctx name cmd e) = o /\
      retry_loop api (S n) exc ctx name cmd {| env := e; trace := t |} =
      (outcome_result name o,
       {| env := e;
          trace := t ++ failures (invocation ctx name cmd e) rcs ++
                   [(invocation ctx name cmd e, o)] |}).
Proof.
  induction n as [|n IH]; intros exc t.
  - exists [], (run_command api t (invocation ctx name cmd e)).
    cbn [retry_loop]. rewrite step_unfold. cbn [env trace record].
    split; [cbn; lia|]. split; [reflexivity|].
    split; [intros i rc Hi; destruct i; discriminate Hi|].
    cbn [failures map app]. rewrite app_nil_r. split; [reflexivity|].
    destruct (run_command api t _); reflexivity.
  - cbn [retry_loop]. rewrite step_unfold. cbn [env trace record].
    destruct (run_command api t (invocation ctx name cmd e))
      as [|rc|msg] eqn:H0; cbn [outcome_result].
    + exists [], Ok. cbn [failures map app length].
      rewrite app_nil_r.
      split; [lia|]. split; [discriminate|].
      split; [intros i rc Hi; destruct i; discriminate Hi|]. auto.
    + destruct (IH (Some (StepFailure name rc))
                  (t ++ [(invocation ctx name cmd e, Failure rc)]))
        as (rcs & o & Hlen & Hfull & Hfail & Hlast & Hrun).
      exists (rc :: rcs), o. cbn [length failures map].
      split; [lia|]. split; [intros Ho; rewrite (Hfull Ho); reflexivity|].
      split; [apply attempts_fail_cons; assumption|].
      rewrite <- app_assoc in Hlast, Hrun. cbn [app] in Hlast, Hrun.
      split; [exact Hlast|]. exact Hrun.
    + exists [], (Error msg). cbn [failures map app length].
      rewrite app_nil_r.
      split; [lia|]. split; [discriminate|].
      split; [intros i rc Hi; destruct i; discriminate Hi|]. auto.
Qed.

(** X1: with at least one attempt allowed and whatever the step does,
    [retry] ends with the result of its last invocation: it makes some
    failed attempts, fewer than [attempts], and one more invocation whose
    outcome is the outcome of [retry]; that last invocation is a
    [StepFailure] only when all [attempts] were used. *)
Theorem retry_ends_with_last_attempt api attempts ctx name cmd e t :
  1 <= attempts ->
  exists rcs o,
    Z.of_nat (length rcs) < attempts /\
    (is_failure o = true -> Z.of_nat (length rcs) + 1 = attempts) /\
    fst (retry api attempts ctx name cmd {| env := e; trace := t |}) =
      outcome_result name o /\
    trace (snd (retry api attempts ctx name cmd
                  {| env := e; trace := t |})) =
      t ++ failures (invocation ctx name cmd e) rcs ++
      [(invocation ctx name cmd e, o)].
Proof.
  intros Hpos. unfold retry.
  destruct (Z.to_nat attempts) as [|n] eqn:Hn; [lia|].
  destruct (retry_loop_outcomes api ctx name cmd e n None t)
    as (rcs & o & Hlen & Hfull & _ & _ & Hrun).
  exists rcs, o. rewrite Hrun. cbn [fst snd trace].
  split; [lia|]. split; [intros Ho; rewrite (Hfull Ho); lia|]. auto.
Qed.

(** X2: [retry] never invokes the step more than [attempts] times,
    whatever [attempts] is; it only appends invocations of its own step
    to the trace and leaves [env] alone. *)
Theorem retry_bounded_and_framed api attempts ctx name cmd e t :
  exists ext,
    trace (snd (retry api attempts ctx name cmd
                  {| env := e; trace := t |})) = t ++ ext /\
    (length ext <= Z.to_nat attempts)%nat /\
    Forall (fun r => fst r = invocation ctx name cmd e) ext /\
    env (snd (retry api attempts ctx name cmd {| env := e; trace := t |}))
      = e.
Proof.
  unfold retry. destruct (Z.to_nat attempts) as [|n].
  - exists []. cbn. rewrite app_nil_r. auto.
  - destruct (retry_loop_outcomes api ctx name cmd e n None t)
      as (rcs & o & Hlen & _ & _ & _ & Hrun).
    exists (failures (invocation ctx name cmd e) rcs ++
            [(invocation ctx name cmd e, o)]).
    rewrite Hrun. cbn [fst snd trace env].
    split; [reflexivity|]. split.
    { rewrite length_app, failures_length. cbn. lia. }
    split; [|reflexivity].
    apply Forall_app. split; [|repeat constructor].
    unfold failures. apply Forall_map. apply Forall_forall.
    intros; reflexivity.
Qed.

(** X3: an exception of the step that is not a [StepFailure] is not
    retried: after [k - 1] failed attempts, an attempt [k <= attempts]
    that ends in such an exception makes [retry] raise it at once, after
    exactly [k] invocations. *)
Theorem retry_does_not_catch_other_errors
    api attempts ctx name cmd e t rcs msg :
  attempts_fail api t (invocation ctx name cmd e) rcs ->
  Z.of_nat (length rcs) < attempts ->
  run_command api (t ++ failures (invocation ctx name cmd e) rcs)
    (invocation ctx name cmd e) = Error msg ->
  retry api attempts ctx name cmd {| env := e; trace := t |} =
  (Raise (StepError name msg),
   {| env := e;
      trace := t ++ failures (invocation ctx name cmd e) rcs ++
               [(invocation ctx name cmd e, Error msg)] |}).
Proof.
  intros Hfail Hlt Herr. unfold retry.
  replace (Z.to_nat attempts)
    with (length rcs + S (Z.to_nat attempts - S (length rcs)))%nat by lia.
  rewrite (retry_loop_failures _ _ _ _ _ _ _ _ _ Hfail).
  cbn [retry_loop]. rewrite step_unfold. cbn [env trace record].
  rewrite Herr. unfold record. cbn [outcome_result env trace].
  rewrite <- app_assoc. reflexivity.
Qed.

(* ------------------------------------------------------------------- *)
(** ** The start_dir hack and substring tests                            *)
(* ------------------------------------------------------------------- *)

(** X4: the start_dir hack drops one trailing "k" component and nothing
    else: a start_dir that ends in "k" loses that component, any other
    non-empty start_dir is kept, and the empty one has no last
    component to look at. *)
Theorem hack_start_dir_drops_trailing_k (p : list string) (c : string) :
  hack_start_dir (p ++ ["k"]) = Some p /\
  (c <> "k" -> hack_start_dir (p ++ [c]) = Some (p ++ [c])) /\
  hack_start_dir [] = None.
Proof.
  unfold hack_start_dir. split; [|split; [|reflexivity]].
  - rewrite last_snoc. cbn. rewrite removelast_last. reflexivity.
  - intros Hc. rewrite last_snoc.
    apply String.eqb_neq in Hc. rewrite Hc. reflexivity.
Qed.

Lemma prefix_app_inv (a b : string) :
  String.prefix a b = true -> exists rest, b = a +:+ rest.
Proof.
  revert b. induction a as [|x a IH]; intros b H.
  - exists b. reflexivity.
  - destruct b as [|y b]; [discriminate H|]. cbn in H.
    destruct (Ascii.ascii_dec x y) as [->|]; [|discriminate H].
    destruct (IH b H) as [rest ->]. exists rest. reflexivity.
Qed.

Lemma prefix_app (a rest : string) : String.prefix a (a +:+ rest) = true.
Proof.
  induction a as [|x a IH].
  - destruct rest; reflexivity.
  - change (String x a +:+ rest) with (String x (a +:+ rest)).
    cbn [String.prefix].
    destruct (Ascii.ascii_dec x x); [exact IH|contradiction].
Qed.

(** X5: [contains needle hay] is Python's [needle in hay]: it holds
    exactly when [hay] is some text, then [needle], then some text. *)
Theorem contains_iff_substring (needle hay : string) :
  contains needle hay = true <->
  exists before after, hay = before +:+ needle +:+ after.
Proof.
  induction hay as [|c hay IH]; cbn [contains].
  - rewrite orb_false_r. split.
    + intros H. apply prefix_app_inv in H as [rest H].
      exists EmptyString, rest. exact H.
    + intros (before & after & H).
      destruct before; [|discriminate H].
      change (EmptyString = needle +:+ after) in H.
      destruct needle; [reflexivity|discriminate H].
  - rewrite orb_true_iff, IH. split.
    + intros [H|(before & after & ->)].
      * apply prefix_app_inv in H as [rest H].
        exists EmptyString, rest. exact H.
      * exists (String c before), after. reflexivity.
    + intros (before & after & H). destruct before as [|x before].
      * left. change (String c hay = needle +:+ after) in H.
        rewrite H. apply prefix_app.
      * right.
        change (String c hay = String x (before +:+ needle +:+ after)) in H.
        injection H as _ ->. eauto.
Qed.

(* ------------------------------------------------------------------- *)
(** ** The shape of every run                                            *)
(* ------------------------------------------------------------------- *)

Definition is_normal {A} (r : Result A) : bool :=
  match r with Normal _ => true | Raise _ => false end.

(** The exception [api.step] raises for a step that ended this way. *)
Definition raised_by (p : string * Outcome) : option Exn :=
  match snd p with
  | Ok => None
  | Failure rc => Some (StepFailure (fst p) rc)
  | Error msg => Some (StepError (fst p) msg)
  end.

(** The last step of a run that did not succeed. *)
Definition last_failure (t : list StepRecord) : option (string * Outcome) :=
  last (List.filter (fun p => negb (is_ok (snd p))) (outcomes t)).

(** The names of a run with the consecutive attempts of [name] counted
    as one step. *)
Fixpoint merge_attempts (name : string) (l : list string) : list string :=
  match l with
  | [] => []
  | x :: rest =>
      match rest with
      | y :: _ =>
          if String.eqb x name && String.eqb y name
          then merge_attempts name rest
          else x :: merge_attempts name rest
      | [] => [x]
      end
  end.

Fixpoint prefixb (l1 l2 : list string) : bool :=
  match l1, l2 with
  | [], _ => true
  | x :: l1', y :: l2' => String.eqb x y && prefixb l1' l2'
  | _ :: _, [] => false
  end.

(** How often a step may run: [retry] is called with three attempts for
    [go mod download], every other step is called once. *)
Definition max_runs (name : string) : nat :=
  if String.eqb name "go mod download" then 3 else 1.

Definition within_bounds (l : list string) : bool :=
  forallb (fun n => (length (List.filter (String.eqb n) l) <=? max_runs n)%nat)
    l.

(** The steps inside [with api.context(cwd=infra_dir)] only, and the steps
    that come after the "Run tests" updates of [env]. *)
Definition env_free_steps : list string :=
  ["git init"; "git add"; "git commit"; "git diff go.mod"].

Definition test_steps : list string :=
  ["make all"; "run_unittests"; "stop the cloud emulators"].

Definition expected_env (api : Api) (sd : Path) (name : string) :
    option (gmap string Value) :=
  if existsb (String.eqb name) env_free_steps then None
  else if existsb (String.eqb name) test_steps
       then Some (tests_env api sd)
       else Some (base_env api sd).

Definition call_ok (api : Api) (sd : Path) (r : StepRecord) : Prop :=
  inv_cwd (fst r) = Some (infra_dir sd) /\
  inv_env (fst r) = expected_env api sd (inv_name (fst r)).

Lemma prefixb_sound l1 :
  forall l2, prefixb l1 l2 = true -> exists rest, l2 = l1 ++ rest.
Proof.
  induction l1 as [|x l1 IH]; intros l2 H.
  - exists l2. reflexivity.
  - destruct l2 as [|y l2]; [discriminate H|]. cbn [prefixb] in H.
    apply andb_true_iff in H as [Hx Hrest].
    apply String.eqb_eq in Hx as ->.
    destruct (IH l2 Hrest) as [rest ->]. exists rest. reflexivity.
Qed.

Lemma succeededb_true name t : succeededb name t = true -> succeeded name t.
Proof.
  unfold succeeded, succeededb. intros H.
  apply existsb_exists in H as ([n o] & Hin & H). cbn [fst snd] in H.
  apply andb_true_iff in H as [Hn Ho].
  apply String.eqb_eq in Hn as ->. destruct o; try discriminate Ho.
  exact Hin.
Qed.



Lemma existsb_false_filter {A} (f : A -> bool) (l : list A) :
  existsb f l = false -> List.filter f l = [].
Proof.
  induction l as [|x l IH]; cbn [existsb List.filter]; [reflexivity|].
  intros H. apply orb_false_iff in H as [-> Hl]. exact (IH Hl).
Qed.

(** What holds of the result and the trace of every run. *)
Definition run_shape_at (api : Api) (sd : Path) (r : Result unit)
    (s' : State) : Prop :=
  let t := trace s' in
  is_normal r = succeededb "git diff go.mod" t /\
  (forall e, r = Raise e ->
     match last_failure t with
     | Some p => raised_by p
     | None => None
     end = Some e) /\
  prefixb (merge_attempts "go mod download" (names t))
    (declared_steps (buildername api)) = true /\
  (r = Normal tt ->
   merge_attempts "go mod download" (names t) =
   declared_steps (buildername api)) /\
  within_bounds (names t) = true /\
  Forall (call_ok api sd) t /\
  (contains "Build" (buildername api) = true ->
   existsb (String.eqb "stop the cloud emulators") (names t) = false) /\
  (r = Normal tt -> uses_emulators (buildername api) = true ->
   succeededb "start the cloud emulators" t = true).

Tactic Notation "leaf_call" :=
  lazy beta iota delta
    [inv_env inv_cwd inv_name invocation fst ctx_env ctx_cwd in_infra
     in_infra_env expected_env existsb env_free_steps test_steps String.eqb
     Ascii.eqb Bool.eqb orb String.append].

(** Rewrite with what the path knows of the builder name. *)
Ltac known_builder :=
  repeat match goal with
    | H : uses_emulators _ = _ |- _ => rewrite H; clear H
    | H : contains "Build" _ = _ |- _ => rewrite H; clear H
    end.

(** One conjunct of [run_shape_at] at the end of one path. *)
Ltac shape_leaf :=
  lazymatch goal with
  | |- is_normal _ = succeededb _ _ =>
      unfold succeededb; leaf_outcomes; vm_compute; reflexivity
  | |- forall e, _ = Raise e -> _ =>
      intros e He;
      first [ discriminate He
            | injection He as <-; unfold last_failure; leaf_outcomes;
              vm_compute; reflexivity ]
  | |- prefixb _ _ = true =>
      leaf_names; unfold declared_steps; known_builder;
      vm_compute; reflexivity
  | |- _ = Normal tt -> _ = _ :> list string =>
      intros Hr;
      first [ discriminate Hr
            | leaf_names; unfold declared_steps; known_builder;
              vm_compute; reflexivity ]
  | |- within_bounds _ = true =>
      unfold within_bounds; leaf_names; vm_compute; reflexivity
  | |- Forall _ _ =>
      repeat (constructor;
              [ split;
                [ reflexivity
                | leaf_call;
                  first [ progress unfold tests_env; known_builder
                        | idtac ];
                  reflexivity ]
              | ]);
      constructor
  | |- contains _ _ = true -> _ =>
      intros Hb;
      first [ leaf_names; vm_compute; reflexivity | congruence ]
  | |- _ = Normal tt -> uses_emulators _ = true -> _ =>
      intros Hr He;
      first [ discriminate Hr
            | congruence
            | unfold succeededb; leaf_outcomes; vm_compute; reflexivity ]
  end.

(** Every path through [RunSteps_body], whatever the steps do. *)
Lemma run_shape api sd :
  post (RunSteps_body api sd) initial (run_shape_at api sd).
Proof.
  wp_begin. wp_run.
  all: cbv beta delta [run_shape_at]; intros t.
  all: split; [|split; [|split; [|split; [|split; [|split; [|split]]]]]].
  all: subst t; cbn [trace].
  all: shape_leaf.
Qed.

Lemma RunSteps_shape api :
  start_dir api <> [] ->
  exists sd,
    hack_start_dir (start_dir api) = Some sd /\
    run_shape_at api sd (fst (RunSteps api initial))
      (snd (RunSteps api initial)).
Proof.
  intros Hsd. destruct (hack_start_dir_ok _ Hsd) as [sd Hhack].
  exists sd. split; [exact Hhack|]. unfold RunSteps. rewrite Hhack.
  apply run_shape.
Qed.

(** X6: whatever the steps do, [RunSteps] returns exactly when the final
    sanity check [git diff go.mod] ran and succeeded: no failure before
    it, retried attempts of [go mod download] apart, lets the run reach
    it, and nothing after it can fail. *)
Theorem returns_iff_sanity_check_passed api :
  start_dir api <> [] ->
  fst (RunSteps api initial) = Normal tt <->
  succeeded "git diff go.mod" (trace (snd (RunSteps api initial))).
Proof.
  intros Hsd. destruct (RunSteps_shape api Hsd) as (sd & _ & Hr & _).
  cbv zeta in Hr. split.
  - intros Hn. rewrite Hn in Hr. apply succeededb_true. symmetry. exact Hr.
  - intros Hs%succeeded_b. rewrite Hs in Hr.
    destruct (fst (RunSteps api initial)) as [[]|e];
      [reflexivity|discriminate Hr].
Qed.

(** X7: when [RunSteps] raises, the exception is the one of the last
    step of the run that did not succeed: its [StepFailure] with the
    return code of that invocation, or the other exception it raised. *)
Theorem failure_cause_is_last_failed_step api e :
  start_dir api <> [] ->
  fst (RunSteps api initial) = Raise e ->
  exists name o,
    last_failure (trace (snd (RunSteps api initial))) = Some (name, o) /\
    o <> Ok /\
    outcome_result name o = Raise e.
Proof.
  intros Hsd He. destruct (RunSteps_shape api Hsd) as (sd & _ & _ & Hc & _).
  cbv zeta in Hc. specialize (Hc e He).
  destruct (last_failure _) as [[name o]|]; [|discriminate Hc].
  exists name, o. split; [reflexivity|]. unfold raised_by in Hc.
  cbn [fst snd] in Hc.
  destruct o; [discriminate Hc| |]; injection Hc as <-;
    (split; [discriminate|reflexivity]).
Qed.


(** X9: the steps of a run, with the attempts of [go mod download]
    counted as one step, are a prefix of the declared steps of the
    builder: no step runs before an earlier one has run, whatever the
    steps do; and a run that returns executed every declared step. *)
Theorem steps_run_in_declared_order api :
  start_dir api <> [] ->
  (exists rest,
     declared_steps (buildername api) =
     merge_attempts "go mod download"
       (names (trace (snd (RunSteps api initial)))) ++ rest) /\
  (fst (RunSteps api initial) = Normal tt ->
   merge_attempts "go mod download"
     (names (trace (snd (RunSteps api initial)))) =
   declared_steps (buildername api)).
Proof.
  intros Hsd.
  destruct (RunSteps_shape api Hsd) as (sd & _ & _ & _ & Hp & Hall & _).
  cbv zeta in Hp, Hall. split; [|exact Hall].
  apply prefixb_sound. exact Hp.
Qed.

Lemma runs_of_bound name t :
  within_bounds (names t) = true -> (runs_of name t <= max_runs name)%nat.
Proof.
  unfold within_bounds, runs_of. intros H.
  destruct (List.filter (String.eqb name) (names t)) as [|x l] eqn:Hf.
  - cbn. lia.
  - assert (Hx : In x (List.filter (String.eqb name) (names t)))
      by (rewrite Hf; left; reflexivity).
    apply filter_In in Hx as [Hin Hx]. apply String.eqb_eq in Hx as <-.
    rewrite forallb_forall in H. specialize (H name Hin).
    apply Nat.leb_le in H. rewrite Hf in H. exact H.
Qed.

(** X10: whatever the steps do, [go mod download] is invoked at most
    three times and every other step at most once. *)
Theorem step_run_counts_bounded api name :
  start_dir api <> [] ->
  (runs_of name (trace (snd (RunSteps api initial))) <=
   if String.eqb name "go mod download" then 3 else 1)%nat.
Proof.
  intros Hsd.
  destruct (RunSteps_shape api Hsd) as (sd & _ & _ & _ & _ & _ & Hb & _).
  cbv zeta in Hb. exact (runs_of_bound name _ Hb).
Qed.

(** X11: every step of a run is invoked in [infra_dir], and its
    environment is decided by its name: the four git steps run without
    [env]; [make all], [run_unittests] and the emulator stop run with
    the environment of the tests; every other step, the emulator start
    among them, runs with the dict literal. *)
Theorem steps_run_in_infra_dir api :
  start_dir api <> [] ->
  exists sd,
    hack_start_dir (start_dir api) = Some sd /\
    Forall (fun r =>
              inv_cwd (fst r) = Some (infra_dir sd) /\
              inv_env (fst r) = expected_env api sd (inv_name (fst r)))
      (trace (snd (RunSteps api initial))).
Proof.
  intros Hsd.
  destruct (RunSteps_shape api Hsd)
    as (sd & Hhack & _ & _ & _ & _ & _ & Hcalls & _).
  exists sd. split; [exact Hhack|exact Hcalls].
Qed.

Lemma base_env_keys api sd k v :
  base_env api sd !! k = Some v ->
  In k ["PATH"; "GIT_USER_AGENT"; "GOPATH"; "GOROOT"; "GOFLAGS"; "GOCACHE";
        "DOCKER_CONFIG"; "CHROME_HEADLESS"].
Proof.
  unfold base_env. intros H.
  repeat (rewrite lookup_insert in H;
          destruct (decide (_ = k)) as [<-|_];
          [cbn; tauto|]).
  rewrite lookup_empty in H. discriminate H.
Qed.

(** X12: the environment of the build/test step extends the dict
    literal: every entry of the literal other than [PATH] is still
    there, [GOFLAGS=-mod=readonly] among them, and [PATH] is the
    literal's [PATH] with the depot_tools directory appended after the
    path separator. *)
Theorem tests_env_extends_base_env api name e :
  start_dir api <> [] ->
  name = "make all" \/ name = "run_unittests" ->
  env_of name (trace (snd (RunSteps api initial))) = Some e ->
  exists sd,
    hack_start_dir (start_dir api) = Some sd /\
    (forall k v, k <> "PATH" ->
                 base_env api sd !! k = Some v -> e !! k = Some v) /\
    e !! "GOFLAGS" = Some (VStr "-mod=readonly") /\
    exists p,
      base_env api sd !! "PATH" = Some (VStr p) /\
      e !! "PATH" =
        Some (VStr (String.concat (pathsep api)
                      [p; path_str (depot_tools sd)])).
Proof.
  intros Hsd Hname Henv.
  destruct (hack_start_dir_ok _ Hsd) as [sd Hhack].
  exists sd. split; [exact Hhack|].
  assert (He : e = tests_env api sd).
  { revert Henv. unfold RunSteps. rewrite Hhack.
    apply (proj1 (run_env api sd) name e Hname). }
  subst e.
  assert (Hkeep : forall k v, k <> "PATH" ->
            base_env api sd !! k = Some v ->
            tests_env api sd !! k = Some v).
  { intros k v Hk Hbase. pose proof (base_env_keys _ _ _ _ Hbase) as Hin.
    unfold tests_env. rewrite lookup_insert_ne by congruence.
    cbn [In] in Hin.
    assert (Hnew : forall key : string,
              ends_with "_EMULATOR_HOST" key = true \/
              key = "SKIABOT_TEST_DEPOT_TOOLS" -> key <> k).
    { intros key Hkey ->.
      destruct Hin as [<-|[<-|[<-|[<-|[<-|[<-|[<-|[<-|[]]]]]]]]];
        destruct Hkey as [Hkey|Hkey]; discriminate Hkey. }
    rewrite lookup_insert_ne by (apply Hnew; right; reflexivity).
    destruct (uses_emulators (buildername api)); [|exact Hbase].
    repeat (rewrite lookup_insert_ne by (apply Hnew; left; reflexivity)).
    exact Hbase. }
  split; [exact Hkeep|]. split.
  { apply Hkeep; [discriminate|]. unfold base_env.
    repeat (rewrite lookup_insert_ne by discriminate).
    apply lookup_insert_eq. }
  eexists. split.
  - unfold base_env. apply lookup_insert_eq.
  - unfold tests_env. apply lookup_insert_eq.
Qed.

(** X13: on a builder whose name contains "Build" the emulator stop
    never runs, whatever the steps do; yet a run that returns on a
    builder whose name contains "Large" or "Race" has started the
    emulators: a returning run of a "Build" builder with such a name
    leaves them running. *)
Theorem emulators_never_stopped_after_make_all api :
  start_dir api <> [] ->
  contains "Build" (buildername api) = true ->
  runs_of "stop the cloud emulators" (trace (snd (RunSteps api initial)))
    = 0%nat /\
  (fst (RunSteps api initial) = Normal tt ->
   uses_emulators (buildername api) = true ->
   succeeded "start the cloud emulators"
     (trace (snd (RunSteps api initial)))).
Proof.
  intros Hsd Hbuild.
  destruct (RunSteps_shape api Hsd)
    as (sd & _ & _ & _ & _ & _ & _ & _ & Hstop & Hstart).
  cbv zeta in Hstop, Hstart. split.
  - unfold runs_of. rewrite (existsb_false_filter _ _ (Hstop Hbuild)).
    reflexivity.
  - intros Hr He. apply succeededb_true. exact (Hstart Hr He).
Qed.

(* ------------------------------------------------------------------- *)
(** ** The further theorems at the builders of GenTests                  *)
(* ------------------------------------------------------------------- *)

(** Three attempts allowed, the first two failing. *)
Lemma retry_ends_with_last_attempt_witness :
  exists rcs o,
    Z.of_nat (length rcs) < 3 /\
    (is_failure o = true -> Z.of_nat (length rcs) + 1 = 3) /\
    fst (retry (builder_api "Infra-PerCommit-Small" fails_twice) 3
           {| ctx_cwd := None; ctx_env := true |} "go mod download"
           [VStr "go"; VStr "mod"; VStr "download"]
           {| env := ∅; trace := [] |}) = outcome_result "go mod download" o /\
    trace (snd (retry (builder_api "Infra-PerCommit-Small" fails_twice) 3
                  {| ctx_cwd := None; ctx_env := true |} "go mod download"
                  [VStr "go"; VStr "mod"; VStr "download"]
                  {| env := ∅; trace := [] |})) =
      [] ++ failures (invocation {| ctx_cwd := None; ctx_env := true |}
                        "go mod download"
                        [VStr "go"; VStr "mod"; VStr "download"] ∅) rcs ++
      [(invocation {| ctx_cwd := None; ctx_env := true |} "go mod download"
          [VStr "go"; VStr "mod"; VStr "download"] ∅, o)].
Proof.
  apply (retry_ends_with_last_attempt
           (builder_api "Infra-PerCommit-Small" fails_twice) 3
           {| ctx_cwd := None; ctx_env := true |} "go mod download"
           [VStr "go"; VStr "mod"; VStr "download"] ∅ []).
  lia.
Defined.

(** A world in which the second invocation does not even start. *)
Definition breaks_second : list StepRecord -> Invocation -> Outcome :=
  fun history _ =>
    match length history with
    | O => Failure 1
    | _ => Error "no such file"
    end.

Lemma retry_does_not_catch_other_errors_witness :
  retry (builder_api "Infra-PerCommit-Small" breaks_second) 3
    {| ctx_cwd := None; ctx_env := true |} "go mod download"
    [VStr "go"; VStr "mod"; VStr "download"] {| env := ∅; trace := [] |} =
  (Raise (StepError "go mod download" "no such file"),
   {| env := ∅;
      trace :=
        [] ++ failures (invocation {| ctx_cwd := None; ctx_env := true |}
                          "go mod download"
                          [VStr "go"; VStr "mod"; VStr "download"] ∅) [1] ++
        [(invocation {| ctx_cwd := None; ctx_env := true |}
            "go mod download" [VStr "go"; VStr "mod"; VStr "download"] ∅,
          Error "no such file")] |}).
Proof.
  apply (retry_does_not_catch_other_errors
           (builder_api "Infra-PerCommit-Small" breaks_second) 3
           {| ctx_cwd := None; ctx_env := true |} "go mod download"
           [VStr "go"; VStr "mod"; VStr "download"] ∅ [] [1] "no such file").
  - intros [|i] rc H; [|discriminate H]. injection H as <-. reflexivity.
  - cbn. lia.
  - reflexivity.
Defined.

(** "Infra-PerCommit-Small", every step succeeding. *)
Lemma returns_iff_sanity_check_passed_witness :
  fst (RunSteps (builder_api "Infra-PerCommit-Small" (always Ok)) initial)
    = Normal tt <->
  succeeded "git diff go.mod"
    (trace (snd (RunSteps (builder_api "Infra-PerCommit-Small" (always Ok))
                   initial))).
Proof.
  apply (returns_iff_sanity_check_passed
           (builder_api "Infra-PerCommit-Small" (always Ok))).
  discriminate.
Defined.

(** "Infra-PerCommit-Large" with failing tests and a failing cleanup:
    the cleanup is the last failed step. *)
Lemma failure_cause_is_last_failed_step_witness :
  exists name o,
    last_failure
      (trace (snd (RunSteps (builder_api "Infra-PerCommit-Large"
          (failing ["run_unittests"; "stop the cloud emulators"]))
          initial))) = Some (name, o) /\
    o <> Ok /\
    outcome_result name o = Raise (StepFailure "stop the cloud emulators" 1).
Proof.
  apply (failure_cause_is_last_failed_step
           (builder_api "Infra-PerCommit-Large"
              (failing ["run_unittests"; "stop the cloud emulators"]))
           (StepFailure "stop the cloud emulators" 1)).
  - discriminate.
  - vm_compute. reflexivity.
Defined.


(** "Infra-PerCommit-Race" with a fetch that fails once. *)
Lemma steps_run_in_declared_order_witness :
  (exists rest,
     declared_steps "Infra-PerCommit-Race" =
     merge_attempts "go mod download"
       (names (trace (snd (RunSteps
          (builder_api "Infra-PerCommit-Race" flaky_fetch) initial)))) ++
     rest) /\
  (fst (RunSteps (builder_api "Infra-PerCommit-Race" flaky_fetch) initial)
     = Normal tt ->
   merge_attempts "go mod download"
     (names (trace (snd (RunSteps
        (builder_api "Infra-PerCommit-Race" flaky_fetch) initial)))) =
   declared_steps "Infra-PerCommit-Race").
Proof.
  apply (steps_run_in_declared_order
           (builder_api "Infra-PerCommit-Race" flaky_fetch)).
  discriminate.
Defined.

(** "Infra-PerCommit-Small" with a fetch that always fails. *)
Lemma step_run_counts_bounded_witness :
  (runs_of "go mod download"
     (trace (snd (RunSteps (builder_api "Infra-PerCommit-Small"
                              (failing ["go mod download"])) initial)))
   <= 3)%nat.
Proof.
  apply (step_run_counts_bounded
           (builder_api "Infra-PerCommit-Small"
              (failing ["go mod download"])) "go mod download").
  discriminate.
Defined.

(** "Infra-PerCommit-Large", every step succeeding. *)
Lemma steps_run_in_infra_dir_witness :
  exists sd,
    hack_start_dir ["b"; "work"; "k"] = Some sd /\
    Forall (fun r =>
              inv_cwd (fst r) = Some (infra_dir sd) /\
              inv_env (fst r) =
                expected_env (builder_api "Infra-PerCommit-Large" (always Ok))
                  sd (inv_name (fst r)))
      (trace (snd (RunSteps
                (builder_api "Infra-PerCommit-Large" (always Ok)) initial))).
Proof.
  apply (steps_run_in_infra_dir
           (builder_api "Infra-PerCommit-Large" (always Ok))).
  discriminate.
Defined.

(** "Infra-PerCommit-Medium": the environment of [run_unittests]. *)
Lemma tests_env_extends_base_env_witness :
  exists sd,
    hack_start_dir ["b"; "work"; "k"] = Some sd /\
    (forall k v, k <> "PATH" ->
       base_env (builder_api "Infra-PerCommit-Medium" (always Ok)) sd !! k
         = Some v ->
       tests_env (builder_api "Infra-PerCommit-Medium" (always Ok))
         ["b"; "work"] !! k = Some v) /\
    tests_env (builder_api "Infra-PerCommit-Medium" (always Ok))
      ["b"; "work"] !! "GOFLAGS" = Some (VStr "-mod=readonly") /\
    exists p,
      base_env (builder_api "Infra-PerCommit-Medium" (always Ok)) sd
        !! "PATH" = Some (VStr p) /\
      tests_env (builder_api "Infra-PerCommit-Medium" (always Ok))
        ["b"; "work"] !! "PATH" =
        Some (VStr (String.concat ":" [p; path_str (depot_tools sd)])).
Proof.
  apply (tests_env_extends_base_env
           (builder_api "Infra-PerCommit-Medium" (always Ok))
           "run_unittests").
  - discriminate.
  - right. reflexivity.
  - reflexivity.
Defined.

(** "Infra-PerCommit-Build-Large", every step succeeding. *)
Lemma emulators_never_stopped_after_make_all_witness :
  runs_of "stop the cloud emulators"
    (trace (snd (RunSteps
              (builder_api "Infra-PerCommit-Build-Large" (always Ok))
              initial))) = 0%nat /\
  (fst (RunSteps (builder_api "Infra-PerCommit-Build-Large" (always Ok))
          initial) = Normal tt ->
   uses_emulators "Infra-PerCommit-Build-Large" = true ->
   succeeded "start the cloud emulators"
     (trace (snd (RunSteps
               (builder_api "Infra-PerCommit-Build-Large" (always Ok))
               initial)))).
Proof.
  apply (emulators_never_stopped_after_make_all
           (builder_api "Infra-PerCommit-Build-Large" (always Ok))).
  - discriminate.
  - reflexivity.
Defined.

End Recipe.

(* ===================================================================== *)
(** * PRESUBMIT.py                                                        *)
(* ===================================================================== *)

Module Presubmit.

(** ** Strings of bytes *)

Definition newline : ascii := "010"%char.

Definition nl : string := String newline EmptyString.

(** [line.decode('ascii')] succeeds when every byte is below 128. *)
Definition is_ascii (c : ascii) : bool :=
  match c with Ascii _ _ _ _ _ _ _ b7 => negb b7 end.

Fixpoint decodes_ascii (line : string) : bool :=
  match line with
  | EmptyString => true
  | String c rest => is_ascii c && decodes_ascii rest
  end.

(** The bytes [rstrip()] removes: space, tab, newline, vertical tab, form
    feed and carriage return. *)
Definition is_whitespace (c : ascii) : bool :=
  let n := nat_of_ascii c in
  (n =? 32)%nat || ((9 <=? n)%nat && (n <=? 13)%nat).

Fixpoint rstrip (s : string) : string :=
  match s with
  | EmptyString => EmptyString
  | String c rest =>
      match rstrip rest with
      | EmptyString => if is_whitespace c then EmptyString
                       else String c EmptyString
      | kept => String c kept
      end
  end.

(** [for line in f]: the lines of a file, each with its newline. *)
Fixpoint lines (content : string) : list string :=
  match content with
  | EmptyString => []
  | String c rest =>
      if Ascii.eqb c newline then String c EmptyString :: lines rest
      else match lines rest with
           | [] => [String c EmptyString]
           | line :: more => String c line :: more
           end
  end.

(** [str(n)] and [s.rjust(width)]. *)
Definition str (n : nat) : string := NilEmpty.string_of_uint (Nat.to_uint n).

Definition rjust (width : nat) (s : string) : string :=
  String.concat EmptyString (repeat " " (width - String.length s)) +:+ s.

(** ** The presubmit API *)

Record AffectedFile := mkAffectedFile {
  LocalPath : string;
  ChangedContents : list (nat * string)
}.

(** What a check may raise: [open] on a path that cannot be opened. *)
Inductive Exn := IOError (path : string).

Inductive Returned (A : Type) :=
  | Returns (a : A)
  | Raises (e : Exn).
Arguments Returns {A} a.
Arguments Raises {A} e.

Section Checks.
(** The type of presubmit results of the [output_api] at hand. *)
Variable R : Type.

(** [output_api]: the one constructor the checks of this file use, with
    its [message] and [long_text]. *)
Record OutputApi := mkOutputApi {
  PresubmitPromptWarning : string -> string -> R
}.

(** [input_api]: the change, the regular-expression engine (a compiled
    pattern is kept as its source), the file system, and the canned
    checks of depot_tools. *)
Record InputApi := mkInputApi {
  AffectedFiles : list AffectedFile;
  FilterSourceFile : AffectedFile -> list string -> list string -> bool;
  DEFAULT_BLACK_LIST : list string;
  re_search : string -> string -> option string;
  open : string -> option string;
  RunPylint : list string -> list string -> list R;
  CheckLongLines : nat -> (AffectedFile -> bool) -> list R;
  CheckChangeTodoHasOwner : (AffectedFile -> bool) -> list R;
  CheckChangeHasNoStrayWhitespace : (AffectedFile -> bool) -> list R;
  CheckChangeHasNoTabs : list R
}.

Variable input_api : InputApi.
Variable output_api : OutputApi.

Definition AffectedSourceFiles (file_filter : AffectedFile -> bool) :
    list AffectedFile :=
  List.filter file_filter (AffectedFiles input_api).

Definition extension_pattern (ext : string) : string :=
  ".+\." +:+ ext +:+ "$".

Definition _MakeFileFilter (include_extensions exclude_extensions :
    list string) : AffectedFile -> bool :=
  let white_list :=
    match include_extensions with
    | [] => [".+"]
    | _ => map extension_pattern include_extensions
    end in
  let black_list :=
    match exclude_extensions with
    | [] => ["^$"]
    | _ => map extension_pattern exclude_extensions
    end in
  fun x => FilterSourceFile input_api x white_list black_list.

(** The inner loop of [_CheckNonAscii] over the lines of one file:
    the numbered non-ASCII lines, and the line count. *)
Fixpoint scan_lines (ls : list string) (total_lines : nat)
    (unicode_lines : list (nat * string)) : list (nat * string) * nat :=
  match ls with
  | [] => (unicode_lines, total_lines)
  | line :: rest =>
      let total_lines := S total_lines in
      if decodes_ascii line then scan_lines rest total_lines unicode_lines
      else scan_lines rest total_lines
             (unicode_lines ++ [(total_lines, rstrip line)])
  end.

(** The loop over the affected files. *)
Fixpoint scan_files (files : list AffectedFile)
    (files_with_unicode_lines : list (string * list (nat * string)))
    (max_lines_in_any_file : nat) :
    Returned (list (string * list (nat * string)) * nat) :=
  match files with
  | [] => Returns (files_with_unicode_lines, max_lines_in_any_file)
  | affected_file :: rest =>
      let affected_filepath := LocalPath affected_file in
      match open input_api affected_filepath with
      | None => Raises (IOError affected_filepath)
      | Some content =>
          let '(unicode_lines, total_lines) :=
            scan_lines (lines content) 0 [] in
          match unicode_lines with
          | [] =>
              scan_files rest files_with_unicode_lines
                max_lines_in_any_file
          | _ =>
              scan_files rest
                (files_with_unicode_lines ++
                 [(affected_filepath, unicode_lines)])
                (if (max_lines_in_any_file <? total_lines)%nat
                 then total_lines else max_lines_in_any_file)
          end
      end
  end.

Definition file_text (padding : nat)
    (entry : string * list (nat * string)) : string :=
  "  " +:+ fst entry +:+ nl +:+
  String.concat EmptyString
    (map (fun l => "    " +:+ rjust padding (str (fst l)) +:+ ": " +:+
                   snd l +:+ nl)
         (snd entry)) +:+
  nl.

Definition FILE_EXTENSIONS : list string :=
  ["bat"; "cfg"; "cmd"; "conf"; "css"; "gyp"; "gypi"; "htm"; "html";
   "js"; "json"; "ps1"; "py"; "sh"; "tac"; "yaml"].

Definition _CheckNonAscii : Returned (list R) :=
  let file_filter := _MakeFileFilter FILE_EXTENSIONS [] in
  match scan_files (AffectedSourceFiles file_filter) [] 0 with
  | Raises e => Raises e
  | Returns (files_with_unicode_lines, max_lines_in_any_file) =>
      match files_with_unicode_lines with
      | [] => Returns []
      | _ =>
          let padding := String.length (str max_lines_in_any_file) in
          let long_text :=
            "The following files contain non-ASCII characters:" +:+ nl +:+
            String.concat EmptyString
              (map (file_text padding) files_with_unicode_lines) in
          Returns [PresubmitPromptWarning output_api
                     "Some files contain non-ASCII characters." long_text]
      end
  end.

Definition banned_replacements : list (string * string) :=
  [ ("\breflect\.DeepEqual\b",
     "DeepEqual in go.skia.org/infra/go/testutils");
    ("\bgithub\.com/golang/glog\b", "go.skia.org/infra/go/sklog");
    ("\bgithub\.com/skia-dev/glog\b", "go.skia.org/infra/go/sklog");
    ("\bhttp\.Get\b",
     "NewTimeoutClient in go.skia.org/infra/go/httputils");
    ("\bhttp\.Head\b",
     "NewTimeoutClient in go.skia.org/infra/go/httputils");
    ("\bhttp\.Post\b",
     "NewTimeoutClient in go.skia.org/infra/go/httputils");
    ("\bhttp\.PostForm\b",
     "NewTimeoutClient in go.skia.org/infra/go/httputils");
    ("\bos\.Interrupt\b", "AtExit in go.skia.org/go/cleanup");
    ("\bsignal\.Notify\b", "AtExit in go.skia.org/go/cleanup");
    ("\bsyscall.SIGINT\b", "AtExit in go.skia.org/go/cleanup");
    ("\bsyscall.SIGTERM\b", "AtExit in go.skia.org/go/cleanup") ].

Definition _CheckBannedGoAPIs : list R :=
  let file_filter := _MakeFileFilter ["go"] [] in
  let errors :=
    flat_map (fun affected_file =>
      flat_map (fun changed : nat * string =>
        flat_map (fun banned : string * string =>
          match re_search input_api (fst banned) (snd changed) with
          | Some matched =>
              [LocalPath affected_file +:+ ":" +:+ str (fst changed) +:+
               ": Instead of " +:+ matched +:+ ", please use " +:+
               snd banned +:+ "."]
          | None => []
          end) banned_replacements)
        (ChangedContents affected_file))
      (AffectedSourceFiles file_filter) in
  match errors with
  | [] => []
  | _ => [PresubmitPromptWarning output_api (String.concat nl errors)
          EmptyString]
  end.

Definition pylint_disabled_warnings : list string :=
  ["F0401"; "E0611"; "W0232"; "E1002"; "W0403"; "R0201"; "E1003";
   "W0613"].

Definition CheckChange : list R :=
  let results := [] in
  let pylint_blacklist :=
    [ "infra[\\\/]bots[\\\/]recipes.py";
      ".*[\\\/]\.recipe_deps[\\\/].*";
      ".*[\\\/]node_modules[\\\/].*" ] ++ DEFAULT_BLACK_LIST input_api in
  let results :=
    results ++
    RunPylint input_api pylint_disabled_warnings pylint_blacklist in
  let IGNORE_LINE_LENGTH := ["go"; "html"; "py"] in
  let file_filter := _MakeFileFilter [] IGNORE_LINE_LENGTH in
  let results := results ++ CheckLongLines input_api 100 file_filter in
  let file_filter := _MakeFileFilter [] [] in
  let results :=
    results ++ CheckChangeTodoHasOwner input_api file_filter in
  let results :=
    results ++ CheckChangeHasNoStrayWhitespace input_api file_filter in
  let IGNORE_TABS := ["go"] in
  let file_filter := _MakeFileFilter [] IGNORE_TABS in
  let results := results ++ CheckChangeHasNoTabs input_api in
  let results := results ++ _CheckBannedGoAPIs in
  results.

Definition CheckChangeOnUpload : Returned (list R) :=
  let results := CheckChange in
  match _CheckNonAscii with
  | Raises e => Raises e
  | Returns warnings => Returns (results ++ warnings)
  end.

Definition CheckChangeOnCommit : Returned (list R) :=
  let results := CheckChange in
  Returns results.

(** The affected source files [_CheckNonAscii] looks at that hold a
    line that is not ASCII. *)
Definition has_non_ascii_line (content : string) : bool :=
  negb (forallb decodes_ascii (lines content)).

Lemma scan_lines_acc ls :
  forall n acc,
    fst (scan_lines ls n acc) = acc ++ fst (scan_lines ls n []).
Proof.
  induction ls as [|line ls IH]; intros n acc; cbn [scan_lines].
  - rewrite app_nil_r. reflexivity.
  - destruct (decodes_ascii line); [apply IH|].
    rewrite IH, (IH _ ([] ++ _)). cbn [app fst].
    rewrite <- app_assoc. reflexivity.
Qed.

Lemma scan_lines_none ls :
  forall n,
    fst (scan_lines ls n []) = [] <-> forallb decodes_ascii ls = true.
Proof.
  induction ls as [|line ls IH]; intros n; cbn [scan_lines forallb].
  - split; reflexivity.
  - destruct (decodes_ascii line); cbn [andb]; [apply IH|].
    rewrite scan_lines_acc. split; [|discriminate].
    intros H. apply app_eq_nil in H as [H _]. discriminate H.
Qed.

(** [scan_files] returns no entry exactly when it started with none
    and no file has a non-ASCII line. *)
Lemma scan_files_none files :
  forall found record_max result final_max,
    scan_files files found record_max = Returns (result, final_max) ->
    (result = [] <->
     found = [] /\
     Forall (fun f => forall content,
               open input_api (LocalPath f) = Some content ->
               has_non_ascii_line content = false) files).
Proof.
  induction files as [|f files IH];
    intros found record_max result final_max Hscan;
    cbn [scan_files] in Hscan.
  - injection Hscan as <- <-. split; [auto|tauto].
  - destruct (open input_api (LocalPath f)) as [content|] eqn:Hopen;
      [|discriminate Hscan].
    pose proof (scan_lines_none (lines content) 0%nat) as Hnone.
    destruct (scan_lines (lines content) 0 []) as [unicode total].
    cbn [fst] in Hnone.
    assert (Hf : unicode = [] <->
                 forall c, open input_api (LocalPath f) = Some c ->
                           has_non_ascii_line c = false).
    { rewrite Hopen. unfold has_non_ascii_line. rewrite Hnone. split.
      - intros H c [= <-]. rewrite H. reflexivity.
      - intros H. specialize (H content eq_refl).
        apply negb_false_iff in H. exact H. }
    destruct unicode as [|u unicode].
    + apply IH in Hscan. rewrite Hscan, Forall_cons.
      pose proof (proj1 Hf eq_refl). tauto.
    + apply IH in Hscan. rewrite Hscan, Forall_cons. split.
      * intros [H _]. apply app_eq_nil in H as [_ H]. discriminate H.
      * intros [_ [H _]]. apply Hf in H. discriminate H.
Qed.

(** [_CheckNonAscii] returns at most the one warning, and none exactly
    when no file it looks at has a non-ASCII line. *)
Lemma _CheckNonAscii_warnings warnings :
  _CheckNonAscii = Returns warnings ->
  (warnings = [] \/
   exists long_text,
     warnings = [PresubmitPromptWarning output_api
                   "Some files contain non-ASCII characters."
                   long_text]) /\
  (warnings = [] <->
   Forall (fun f => forall content,
             open input_api (LocalPath f) = Some content ->
             has_non_ascii_line content = false)
     (AffectedSourceFiles (_MakeFileFilter FILE_EXTENSIONS []))).
Proof.
  unfold _CheckNonAscii.
  destruct (scan_files _ [] 0) as [[found final_max]|e] eqn:Hscan;
    [|discriminate].
  apply scan_files_none in Hscan.
  destruct found as [|entry found]; intros [= <-].
  - split; [left; reflexivity|]. split; [|reflexivity].
    intros _. apply Hscan. reflexivity.
  - split; [right; eauto|]. split; [discriminate|].
    intros H. assert (entry :: found = []) by (apply Hscan; auto).
    discriminate.
Qed.

(** C10: [CheckChangeOnCommit] returns exactly the results of
    [CheckChange]; [CheckChangeOnUpload] returns the same list extended
    with what [_CheckNonAscii] returns (and raises when that check
    raises), which is nothing or the one non-ASCII warning: the two
    entry points differ by the non-ASCII check only. *)
Theorem upload_is_commit_plus_non_ascii :
  CheckChangeOnCommit = Returns CheckChange /\
  CheckChangeOnUpload =
    match _CheckNonAscii with
    | Returns warnings => Returns (CheckChange ++ warnings)
    | Raises e => Raises e
    end /\
  (forall warnings,
      _CheckNonAscii = Returns warnings ->
      CheckChangeOnUpload = Returns (CheckChange ++ warnings) /\
      (warnings = [] \/
       exists long_text,
         warnings = [PresubmitPromptWarning output_api
                       "Some files contain non-ASCII characters."
                       long_text]) /\
      (warnings = [] -> CheckChangeOnUpload = CheckChangeOnCommit)).
Proof.
  split; [reflexivity|]. split; [reflexivity|].
  intros warnings Hw. unfold CheckChangeOnUpload, CheckChangeOnCommit.
  rewrite Hw. split; [reflexivity|].
  split; [exact (proj1 (_CheckNonAscii_warnings warnings Hw))|].
  intros ->. rewrite app_nil_r. reflexivity.
Qed.
(* ------------------------------------------------------------------- *)
(** ** More of _CheckNonAscii                                            *)
(* ------------------------------------------------------------------- *)

Lemma scan_lines_cons line ls n :
  fst (scan_lines (line :: ls) n []) =
  (if decodes_ascii line then [] else [(S n, rstrip line)]) ++
  fst (scan_lines ls (S n) []).
Proof.
  cbn [scan_lines]. destruct (decodes_ascii line); [reflexivity|].
  apply scan_lines_acc.
Qed.

Lemma scan_lines_total ls :
  forall n acc, snd (scan_lines ls n acc) = (n + length ls)%nat.
Proof.
  induction ls as [|line ls IH]; intros n acc; cbn [scan_lines length].
  - cbn [snd]. lia.
  - destruct (decodes_ascii line); rewrite IH; lia.
Qed.

Lemma scan_lines_In ls :
  forall n k s,
    In (k, s) (fst (scan_lines ls n [])) <->
    exists i line,
      k = (n + S i)%nat /\ ls !! i = Some line /\
      decodes_ascii line = false /\ s = rstrip line.
Proof.
  induction ls as [|line ls IH]; intros n k s.
  - cbn. split; [contradiction|]. intros (i & l & _ & H & _).
    destruct i; discriminate H.
  - rewrite scan_lines_cons, in_app_iff, IH. split.
    + intros [H|(i & l & -> & Hl & Ha & ->)].
      * destruct (decodes_ascii line) eqn:Ha; [contradiction|].
        destruct H as [[= <- <-]|[]].
        exists 0%nat, line. repeat split; [lia|exact Ha].
      * exists (S i), l. repeat split; [lia|exact Hl|exact Ha].
    + intros (i & l & -> & Hl & Ha & ->). destruct i as [|i].
      * injection Hl as ->. left. rewrite Ha. left. f_equal. lia.
      * right. exists i, l. repeat split; [lia|exact Hl|exact Ha].
Qed.

Lemma scan_lines_sorted ls :
  forall n, StronglySorted Nat.lt (map fst (fst (scan_lines ls n []))).
Proof.
  induction ls as [|line ls IH]; intros n.
  - constructor.
  - rewrite scan_lines_cons. destruct (decodes_ascii line); [apply IH|].
    cbn [app map fst]. constructor; [apply IH|].
    apply Forall_forall. intros k Hk. apply list_elem_of_In in Hk.
    apply in_map_iff in Hk as ([k' s] & <- & Hin).
    apply scan_lines_In in Hin as (i & _ & -> & _). cbn [fst]. lia.
Qed.

(** X14: the inner loop of [_CheckNonAscii] reports exactly the lines
    that do not decode as ASCII: line number [k] (counted from 1) is
    reported with text [s] exactly when line [k] of the file has a byte
    above 127 and [s] is that line right-stripped; the reported numbers
    increase, and [total_lines] ends as the number of lines. *)
Theorem scan_lines_reports_non_ascii_lines (ls : list string) :
  (forall k s,
      In (k, s) (fst (scan_lines ls 0 [])) <->
      exists line,
        (1 <= k)%nat /\ ls !! (k - 1)%nat = Some line /\
        decodes_ascii line = false /\ s = rstrip line) /\
  StronglySorted Nat.lt (map fst (fst (scan_lines ls 0 []))) /\
  snd (scan_lines ls 0 []) = length ls.
Proof.
  split; [|split; [apply scan_lines_sorted|apply scan_lines_total]].
  intros k s. rewrite scan_lines_In. split.
  - intros (i & line & -> & Hl & Ha & ->). exists line.
    replace (0 + S i - 1)%nat with i by lia.
    repeat split; [lia|exact Hl|exact Ha].
  - intros (line & Hk & Hl & Ha & ->). exists (k - 1)%nat, line.
    repeat split; [lia|exact Hl|exact Ha].
Qed.



Lemma scan_files_returns files :
  forall found record_max,
    (exists result, scan_files files found record_max = Returns result) <->
    Forall (fun g => is_Some (open input_api (LocalPath g))) files.
Proof.
  induction files as [|a files IH]; intros found record_max;
    cbn [scan_files].
  - split; [constructor|eauto].
  - destruct (open input_api (LocalPath a)) as [content|] eqn:Hopen.
    + assert (Hstep : forall found' max',
        (exists result, scan_files files found' max' = Returns result) <->
        Forall (fun g => is_Some (open input_api (LocalPath g)))
          (a :: files)).
      { intros found' max'. rewrite IH. split.
        - intros H. constructor; [rewrite Hopen; eauto|exact H].
        - intros H. exact (Forall_inv_tail H). }
      destruct (scan_lines (lines content) 0 []) as [unicode total].
      destruct unicode; apply Hstep.
    + split; [intros [result [=]]|].
      intros H. apply Forall_inv in H. rewrite Hopen in H.
      destruct H as [? [=]].
Qed.


(** X16: an upload reports nothing exactly when [CheckChange] reports
    nothing and every file the non-ASCII check looks at can be opened
    and holds ASCII lines only. *)
Theorem upload_clean_iff :
  CheckChangeOnUpload = Returns [] <->
  CheckChange = [] /\
  Forall (fun f => exists content,
            open input_api (LocalPath f) = Some content /\
            has_non_ascii_line content = false)
    (AffectedSourceFiles (_MakeFileFilter FILE_EXTENSIONS [])).
Proof.
  assert (Hret : (exists w, _CheckNonAscii = Returns w) <->
    Forall (fun g => is_Some (open input_api (LocalPath g)))
      (AffectedSourceFiles (_MakeFileFilter FILE_EXTENSIONS []))).
  { rewrite <- (scan_files_returns _ [] 0%nat). unfold _CheckNonAscii.
    destruct (scan_files _ [] 0) as [[found final_max]|e'].
    - split; [eauto|]. intros _. destruct found; eauto.
    - split; intros [? [=]]. }
  unfold CheckChangeOnUpload.
  destruct _CheckNonAscii as [w|e'] eqn:Hw.
  - pose proof (proj2 (_CheckNonAscii_warnings w Hw)) as Hnone.
    pose proof (proj1 Hret (ex_intro _ w eq_refl)) as Hopen.
    rewrite Forall_forall in Hnone, Hopen. split.
    + intros [= H]. apply app_eq_nil in H as [Hc ->].
      split; [exact Hc|]. apply Forall_forall. intros f Hf.
      destruct (Hopen f Hf) as [content Hcontent].
      exists content. split; [exact Hcontent|].
      exact (proj1 Hnone eq_refl f Hf content Hcontent).
    + intros [-> Hall]. rewrite Forall_forall in Hall.
      assert (w = []) as ->; [|reflexivity].
      apply Hnone. intros f Hf content Hcontent.
      destruct (Hall f Hf) as (c & Hc & Hascii).
      rewrite Hcontent in Hc. injection Hc as <-. exact Hascii.
  - split; [discriminate|]. intros [_ Hall].
    assert (exists w : list R, Raises e' = Returns w) as [w [=]].
    apply Hret. apply Forall_forall. intros f Hf.
    rewrite Forall_forall in Hall.
    destruct (Hall f Hf) as (c & -> & _). eauto.
Qed.

(** *** The files of the report *)

(** What one file adds to the report, and the line count it adds to the
    maximum: nothing unless one of its lines is not ASCII. *)
Definition report_entry (f : AffectedFile) :
    list (string * list (nat * string)) :=
  match open input_api (LocalPath f) with
  | Some content =>
      match fst (scan_lines (lines content) 0 []) with
      | [] => []
      | unicode_lines => [(LocalPath f, unicode_lines)]
      end
  | None => []
  end.

Definition reported_line_count (f : AffectedFile) : list nat :=
  match open input_api (LocalPath f) with
  | Some content =>
      if has_non_ascii_line content then [length (lines content)] else []
  | None => []
  end.

Lemma scan_files_entries files :
  forall found record_max entries final_max,
    scan_files files found record_max = Returns (entries, final_max) ->
    entries = found ++ flat_map report_entry files /\
    final_max =
      Nat.max record_max (list_max (flat_map reported_line_count files)).
Proof.
  induction files as [|a files IH];
    intros found record_max entries final_max Hscan;
    cbn [scan_files flat_map] in Hscan |- *.
  - injection Hscan as <- <-. rewrite app_nil_r. split; [reflexivity|].
    symmetry. apply Nat.max_0_r.
  - unfold report_entry, reported_line_count, has_non_ascii_line at 1.
    destruct (open input_api (LocalPath a)) as [content|];
      [|discriminate Hscan].
    pose proof (scan_lines_none (lines content) 0%nat) as Hnone.
    pose proof (scan_lines_total (lines content) 0%nat []) as Htotal.
    destruct (scan_lines (lines content) 0 []) as [unicode total].
    cbn [fst snd] in Hnone, Htotal |- *. subst total.
    destruct unicode as [|u unicode].
    + rewrite (proj1 Hnone eq_refl). cbn [negb app].
      exact (IH _ _ _ _ Hscan).
    + destruct (forallb decodes_ascii (lines content)) eqn:Hall;
        [discriminate (proj2 Hnone eq_refl)|].
      cbn [negb]. apply IH in Hscan as [-> ->].
      rewrite <- app_assoc. split; [reflexivity|].
      rewrite list_max_app. cbn [list_max fold_right].
      fold reported_line_count.
      destruct (record_max <? 0 + length (lines content))%nat eqn:Hlt;
        [apply Nat.ltb_lt in Hlt|apply Nat.ltb_ge in Hlt]; lia.
Qed.

(** X17: the non-ASCII report lists, in the order of the change, exactly
    the files that hold a non-ASCII line, each with its non-ASCII lines;
    and [max_lines_in_any_file] ends as the largest line count among the
    listed files, files without a non-ASCII line not counting. *)
Theorem non_ascii_report_entries
    (files : list AffectedFile)
    (entries : list (string * list (nat * string))) (max_lines : nat) :
  scan_files files [] 0 = Returns (entries, max_lines) ->
  entries = flat_map report_entry files /\
  max_lines = list_max (flat_map reported_line_count files).
Proof.
  intros Hscan. apply scan_files_entries in Hscan as [-> ->].
  split; reflexivity.
Qed.

(** *** The width of the line numbers *)

Lemma length_append (a b : string) :
  String.length (a +:+ b) = (String.length a + String.length b)%nat.
Proof.
  induction a as [|c a IH]; [reflexivity|].
  change (String c a +:+ b) with (String c (a +:+ b)).
  cbn [String.length]. rewrite IH. reflexivity.
Qed.

Lemma length_spaces (k : nat) :
  String.length (String.concat EmptyString (repeat " " k)) = k.
Proof.
  induction k as [|k IH]; [reflexivity|].
  destruct k as [|k]; [reflexivity|].
  change (String.length (" " +:+ EmptyString +:+
            String.concat EmptyString (repeat " " (S k))) = S (S k)).
  rewrite !length_append, IH. reflexivity.
Qed.

Lemma rjust_length (width : nat) (s : string) :
  String.length (rjust width s) = Nat.max width (String.length s).
Proof. unfold rjust. rewrite length_append, length_spaces. lia. Qed.

Lemma str_length (n : nat) :
  String.length (str n) = Decimal.nb_digits (Nat.to_uint n).
Proof.
  unfold str. induction (Nat.to_uint n) as [|d IH|d IH|d IH|d IH|d IH|d IH
    |d IH|d IH|d IH|d IH]; cbn [NilEmpty.string_of_uint String.length
    Decimal.nb_digits]; congruence.
Qed.

Lemma nb_digits_succ (d : Decimal.uint) :
  (Decimal.nb_digits d <= Decimal.nb_digits (Decimal.Little.succ d))%nat.
Proof.
  induction d; cbn [Decimal.Little.succ Decimal.nb_digits]; lia.
Qed.

(** A larger number has no fewer digits. *)
Lemma str_length_mono (a b : nat) :
  (a <= b)%nat -> (String.length (str a) <= String.length (str b))%nat.
Proof.
  intros Hab. rewrite !str_length. unfold Nat.to_uint.
  rewrite !DecimalFacts.nb_digits_rev.
  induction Hab as [|b _ IH]; [lia|].
  cbn [Nat.to_little_uint].
  rewrite DecimalNat.Unsigned.to_little_uint_succ.
  pose proof (nb_digits_succ
                (Nat.to_little_uint b (Decimal.D0 Decimal.Nil))).
  lia.
Qed.

(** Every reported line number lies between 1 and [m]. *)
Definition numbers_within (entries : list (string * list (nat * string)))
    (m : nat) : Prop :=
  forall path ls k s,
    In (path, ls) entries -> In (k, s) ls -> (1 <= k <= m)%nat.

Lemma scan_files_numbers files :
  forall found record_max entries final_max,
    numbers_within found record_max ->
    scan_files files found record_max = Returns (entries, final_max) ->
    numbers_within entries final_max /\ (record_max <= final_max)%nat.
Proof.
  induction files as [|a files IH];
    intros found record_max entries final_max Hinv Hscan;
    cbn [scan_files] in Hscan.
  - injection Hscan as <- <-. split; [exact Hinv|lia].
  - destruct (open input_api (LocalPath a)) as [content|];
      [|discriminate Hscan].
    pose proof (scan_lines_In (lines content) 0%nat) as Hin.
    pose proof (scan_lines_total (lines content) 0%nat []) as Htotal.
    destruct (scan_lines (lines content) 0 []) as [unicode total].
    cbn [fst snd] in Hin, Htotal.
    destruct unicode as [|u unicode]; [exact (IH _ _ _ _ Hinv Hscan)|].
    apply IH in Hscan.
    + destruct Hscan as [Hentries Hmax]. split; [exact Hentries|].
      destruct (record_max <? total)%nat eqn:Hlt; [|exact Hmax].
      apply Nat.ltb_lt in Hlt. lia.
    + intros path ls k s Hp Hk. apply in_app_iff in Hp as [Hp|Hp].
      * specialize (Hinv path ls k s Hp Hk).
        destruct (record_max <? total)%nat eqn:Hlt; [|exact Hinv].
        apply Nat.ltb_lt in Hlt. lia.
      * destruct Hp as [[= <- <-]|[]].
        apply Hin in Hk as (i & line & -> & Hl & _).
        apply lookup_lt_Some in Hl.
        destruct (record_max <? total)%nat eqn:Hlt.
        -- lia.
        -- apply Nat.ltb_ge in Hlt. lia.
Qed.

(** X18: the line numbers of the non-ASCII report line up: every
    reported line number lies between 1 and [max_lines_in_any_file], so
    right-justified to the width of [str(max_lines_in_any_file)] it
    fills exactly that width. *)
Theorem line_numbers_fill_padding
    (files : list AffectedFile)
    (entries : list (string * list (nat * string))) (max_lines : nat)
    (path : string) (ls : list (nat * string)) (k : nat) (s : string) :
  scan_files files [] 0 = Returns (entries, max_lines) ->
  In (path, ls) entries ->
  In (k, s) ls ->
  (1 <= k <= max_lines)%nat /\
  String.length (rjust (String.length (str max_lines)) (str k)) =
  String.length (str max_lines).
Proof.
  intros Hscan Hp Hk.
  assert (Hk' : (1 <= k <= max_lines)%nat).
  { refine (proj1 (scan_files_numbers files [] 0%nat entries max_lines
                     _ Hscan) path ls k s Hp Hk).
    intros ? ? ? ? []. }
  split; [exact Hk'|]. rewrite rjust_length.
  pose proof (str_length_mono k max_lines (proj2 Hk')). lia.
Qed.

(* ------------------------------------------------------------------- *)
(** ** More of _CheckBannedGoAPIs                                        *)
(* ------------------------------------------------------------------- *)

Lemma flat_map_nil {A B} (f : A -> list B) (l : list A) :
  flat_map f l = [] <-> forall x, In x l -> f x = [].
Proof.
  induction l as [|a l IH]; cbn [flat_map].
  - split; [intros _ x []|reflexivity].
  - split.
    + intros H x [<-|Hx]; apply app_eq_nil in H as [Ha Hl];
        [exact Ha|exact (proj1 IH Hl x Hx)].
    + intros H. rewrite (H a (or_introl eq_refl)).
      apply IH. intros x Hx. apply H. right. exact Hx.
Qed.

(** X19: [_CheckBannedGoAPIs] returns at most one warning, and none
    exactly when no banned pattern matches a changed line of a Go file of
    the change. *)
Theorem banned_go_apis_one_warning :
  (length _CheckBannedGoAPIs <= 1)%nat /\
  (_CheckBannedGoAPIs = [] <->
   forall f changed banned,
     In f (AffectedSourceFiles (_MakeFileFilter ["go"] [])) ->
     In changed (ChangedContents f) ->
     In banned banned_replacements ->
     re_search input_api (fst banned) (snd changed) = None).
Proof.
  unfold _CheckBannedGoAPIs.
  set (errors := flat_map _ (AffectedSourceFiles _)).
  assert (Herr : errors = [] <->
    forall f changed banned,
      In f (AffectedSourceFiles (_MakeFileFilter ["go"] [])) ->
      In changed (ChangedContents f) ->
      In banned banned_replacements ->
      re_search input_api (fst banned) (snd changed) = None).
  { unfold errors. rewrite flat_map_nil. split.
    - intros H f changed banned Hf Hc Hb.
      specialize (H f Hf). rewrite flat_map_nil in H.
      specialize (H changed Hc). rewrite flat_map_nil in H.
      specialize (H banned Hb).
      destruct (re_search input_api (fst banned) (snd changed));
        [discriminate H|reflexivity].
    - intros H f Hf. apply flat_map_nil. intros changed Hc.
      apply flat_map_nil. intros banned Hb.
      rewrite (H f changed banned Hf Hc Hb). reflexivity. }
  destruct errors as [|err errors].
  - split; [cbn; lia|]. split; [intros _; apply Herr; reflexivity|].
    reflexivity.
  - split; [cbn; lia|]. split; [discriminate|].
    intros H. apply Herr in H. discriminate H.
Qed.
End Checks.

(** ** An upload with one non-ASCII line *)

(** A change touching [a.py], whose second line holds the byte 233, with
    canned checks that each report under their own name. *)
Definition example_content : string :=
  "ok" +:+ nl +:+ "caf" +:+ String "233"%char "  " +:+ nl.

Definition example_output : OutputApi (string * string) :=
  {| PresubmitPromptWarning := fun message long_text => (message, long_text) |}.

Definition example_input : InputApi (string * string) :=
  {| AffectedFiles := [mkAffectedFile "a.py" [(2%nat, "caf")]];
     FilterSourceFile := fun f white_list _ =>
       existsb (String.eqb ".+\.py$") white_list;
     DEFAULT_BLACK_LIST := [];
     re_search := fun _ _ => None;
     open := fun path =>
       if String.eqb path "a.py" then Some example_content else None;
     RunPylint := fun _ _ => [("pylint", EmptyString)];
     CheckLongLines := fun _ _ => [];
     CheckChangeTodoHasOwner := fun _ => [];
     CheckChangeHasNoStrayWhitespace := fun _ => [("whitespace", "a.py")];
     CheckChangeHasNoTabs := [] |}.

Example upload_reports_non_ascii_line :
  CheckChangeOnCommit _ example_input example_output =
    Returns [("pylint", EmptyString); ("whitespace", "a.py")] /\
  CheckChangeOnUpload _ example_input example_output =
    Returns [("pylint", EmptyString); ("whitespace", "a.py");
             ("Some files contain non-ASCII characters.",
              "The following files contain non-ASCII characters:" +:+ nl +:+
              "  a.py" +:+ nl +:+
              "    2: caf" +:+ String "233"%char EmptyString +:+ nl +:+ nl)].
Proof. split; vm_compute; reflexivity. Qed.

(** ** A file of twelve lines *)

(** A change touching [a.py], a file of twelve lines whose third line
    holds the byte 233. *)
Definition twelve_lines : string :=
  String.concat EmptyString
    (repeat ("ok" +:+ nl) 2 ++
     ["caf" +:+ String "233"%char nl] ++
     repeat ("ok" +:+ nl) 9).

Definition twelve_lines_input : InputApi (string * string) :=
  {| AffectedFiles := [mkAffectedFile "a.py" [(3%nat, "caf")]];
     FilterSourceFile := fun _ _ _ => true;
     DEFAULT_BLACK_LIST := [];
     re_search := fun _ _ => None;
     open := fun _ => Some twelve_lines;
     RunPylint := fun _ _ => [];
     CheckLongLines := fun _ _ => [];
     CheckChangeTodoHasOwner := fun _ => [];
     CheckChangeHasNoStrayWhitespace := fun _ => [];
     CheckChangeHasNoTabs := [] |}.

Lemma line_numbers_fill_padding_witness :
  (1 <= 3 <= 12)%nat /\
  String.length (rjust (String.length (str 12)) (str 3)) =
  String.length (str 12).
Proof.
  apply (line_numbers_fill_padding _ twelve_lines_input
           (AffectedFiles _ twelve_lines_input)
           [("a.py", [(3%nat, "caf" +:+ String "233"%char EmptyString)])]
           12 "a.py"
           [(3%nat, "caf" +:+ String "233"%char EmptyString)] 3
           ("caf" +:+ String "233"%char EmptyString)).
  - vm_compute. reflexivity.
  - left. reflexivity.
  - left. reflexivity.
Defined.

Lemma non_ascii_report_entries_witness :
  [("a.py", [(3%nat, "caf" +:+ String "233"%char EmptyString)])] =
    flat_map (report_entry _ twelve_lines_input)
      (AffectedFiles _ twelve_lines_input) /\
  12%nat =
    list_max (flat_map (reported_line_count _ twelve_lines_input)
                (AffectedFiles _ twelve_lines_input)).
Proof.
  apply (non_ascii_report_entries _ twelve_lines_input
           (AffectedFiles _ twelve_lines_input)).
  vm_compute. reflexivity.
Defined.

End Presubmit.
